(** * ObjectBox generator: identifiers, annotation processing, schema reading
      and the [Process] driver.

    A shallow embedding of
    - [internal/generator/modelinfo/iduid.go]  (the ["id:uid"] identifier),
    - the [binding.Field.ProcessAnnotations] annotation processor,
    - [internal/generator/c/schema-reader.go]  (FlatBuffers schema reader),
    - the [generator.Process] driver with [createBinding], [createModel],
      [PathIsDirOrPattern] and [pathForEach],
    followed by the properties established about them. *)

From Stdlib Require Import ZArith Lia Bool List Ascii String.
From stdpp Require Import base option strings gmap.

Local Open Scope Z_scope.

(* ===================================================================== *)
(** ** Go runtime and standard-library primitives used by the sources *)
(* ===================================================================== *)

Module Go.

(** Outcome of a Go call returning [(T, error)]: a value, an error value, or
    a run-time panic (here only "index out of range"). *)
Inductive outcome (E A : Type) : Type :=
| Ok (a : A)
| Err (e : E)
| Panic.
Arguments Ok {E A} a.
Arguments Err {E A} e.
Arguments Panic {E A}.

Definition is_ok {E A} (o : outcome E A) : bool :=
  match o with Ok _ => true | _ => false end.

Definition is_err {E A} (o : outcome E A) : bool :=
  match o with Err _ => true | _ => false end.

Definition is_panic {E A} (o : outcome E A) : bool :=
  match o with Panic => true | _ => false end.

(** Byte value of a character; a Go string is a sequence of bytes. *)
Definition byte_of (c : ascii) : Z := Z.of_N (N_of_ascii c).

Definition colon : ascii := ":"%char.

(** [strings.Split(s, sep)] for a one-byte separator: all substrings
    between separators; never empty, [Split "" sep = [""]]. *)
Fixpoint Split (s : string) (sep : ascii) : list string :=
  match s with
  | EmptyString => [EmptyString]
  | String c s' =>
      if Ascii.eqb c sep then EmptyString :: Split s' sep
      else match Split s' sep with
           | h :: t => String c h :: t
           | [] => [String c EmptyString]
           end
  end.

(** [strings.HasSuffix]: some tail of [s] equals [suffix]. *)
Fixpoint HasSuffix (s suffix : string) : bool :=
  if String.eqb s suffix then true
  else match s with
       | EmptyString => false
       | String _ s' => HasSuffix s' suffix
       end.

Fixpoint ContainsByte (chars : string) (c : ascii) : bool :=
  match chars with
  | EmptyString => false
  | String d chars' => Ascii.eqb c d || ContainsByte chars' c
  end.

(** [strings.ContainsAny(s, chars)] for ASCII [chars]. *)
Fixpoint ContainsAny (s chars : string) : bool :=
  match s with
  | EmptyString => false
  | String c s' => ContainsByte chars c || ContainsAny s' chars
  end.

(** *** strconv *)

Inductive NumError : Type :=
| ErrSyntax     (* strconv.ErrSyntax *)
| ErrRange      (* strconv.ErrRange *)
| ErrBitSize.   (* invalid bit size *)

Definition two64 : Z := 2 ^ 64.
Definition maxUint64 : Z := two64 - 1.

Definition is_digit (c : ascii) : bool :=
  (48 <=? byte_of c) && (byte_of c <=? 57).

Definition digit_val (c : ascii) : Z := byte_of c - 48.

(** The digit loop of [strconv.ParseUint] in base 10, on [uint64] with the
    wrap-around of [n *= 10] and [n + d] written out. A letter has digit
    value at least 10 and is a syntax error in base 10, like any other
    byte that is not a decimal digit. *)
Fixpoint parseLoop (cutoff maxVal n : Z) (s : string) : NumError + Z :=
  match s with
  | EmptyString => inr n
  | String c s' =>
      if is_digit c then
        if cutoff <=? n then inl ErrRange
        else
          let n' := (n * 10) mod two64 in
          let n1 := (n' + digit_val c) mod two64 in
          if (n1 <? n') || (maxVal <? n1) then inl ErrRange
          else parseLoop cutoff maxVal n1 s'
      else inl ErrSyntax
  end.

(** [strconv.ParseUint(s, 10, bitSize)]. *)
Definition ParseUint (s : string) (bitSize : Z) : NumError + Z :=
  if String.eqb s EmptyString then inl ErrSyntax
  else
    let bitSize := if bitSize =? 0 then 64 else bitSize in
    if (bitSize <? 0) || (64 <? bitSize) then inl ErrBitSize
    else
      let cutoff := maxUint64 / 10 + 1 in
      let maxVal := (Z.shiftl 1 bitSize mod two64 - 1) mod two64 in
      parseLoop cutoff maxVal 0 s.

Definition digit_char (d : Z) : ascii := ascii_of_N (Z.to_N (48 + d)).

(** Decimal digits of [u], most significant first, prepended to [acc];
    [fuel] bounds the number of digits (20 suffice for a [uint64]). *)
Fixpoint formatBits (fuel : nat) (u : Z) (acc : string) : string :=
  match fuel with
  | O => acc
  | S fuel' =>
      if u <? 10 then String (digit_char u) acc
      else formatBits fuel' (u / 10) (String (digit_char (u mod 10)) acc)
  end.

(** [strconv.FormatUint(u, 10)] for [u : uint64]. *)
Definition FormatUint (u : Z) : string := formatBits 20 u EmptyString.

(** [strconv.FormatInt(i, 10)] for [i : int64]. *)
Definition FormatInt (i : Z) : string :=
  if i <? 0 then String "-"%char (formatBits 20 (- i) EmptyString)
  else formatBits 20 i EmptyString.

End Go.

Import Go.

(* ===================================================================== *)
(** ** modelinfo/iduid.go *)
(* ===================================================================== *)

Module modelinfo.

(** [type IdUid string]. *)
Definition IdUid : Type := string.

(** [Id] is an unsigned 32-bit and [Uid] an unsigned 64-bit integer. *)
Definition Id : Type := Z.
Definition Uid : Type := Z.

Definition two32 : Z := 2 ^ 32.

(** The error values built in iduid.go. *)
Inductive error : Type :=
| ErrUndefined (component : string)          (* "<component> is undefined" *)
| ErrCantParse (idStr : string) (cause : NumError)
    (* "can't parse '<idStr>' as unsigned int: <cause>" *)
| ErrZero (component : string)               (* "<component> is zero" *)
| ErrTooManyColons.              (* "invalid id format - too many colons" *)

Abbreviation result := (outcome error).

(** [var componentNamesErr = [2]string{"id", "uid"}]; indexing past the
    end panics. *)
Definition componentNamesErr (n : nat) : option string :=
  match n with
  | O => Some "id"
  | S O => Some "uid"
  | _ => None
  end.

Definition CreateIdUid (id : Id) (uid : Uid) : IdUid :=
  FormatInt id +:+ ":" +:+ FormatUint uid.

(** [getComponent]: the element [n] of the split is taken without a
    length check, so an index past the end of the slice panics. *)
Definition getComponent (str : IdUid) (n : nat) (bitsize : Z)
    (allowZero : bool) : result Z :=
  if (String.length str =? 0)%nat then
    match componentNamesErr n with
    | Some name => Err (ErrUndefined name)
    | None => Panic
    end
  else
    match nth_error (Split str colon) n with
    | None => Panic
    | Some idStr =>
        match ParseUint idStr bitsize with
        | inl err => Err (ErrCantParse idStr err)
        | inr component =>
            if (component =? 0) && negb allowZero then
              match componentNamesErr n with
              | Some name => Err (ErrZero name)
              | None => Panic
              end
            else Ok component
        end
    end.

Definition GetId (str : IdUid) : result Id :=
  match getComponent str 0 32 false with
  | Ok id => Ok (id mod two32)
  | Err e => Err e
  | Panic => Panic
  end.

Definition GetUid (str : IdUid) : result Uid := getComponent str 1 64 false.

Definition GetUidAllowZero (str : IdUid) : result Uid :=
  getComponent str 1 64 true.

Definition Validate (str : IdUid) : outcome error unit :=
  match GetUid str with
  | Err e => Err e
  | Panic => Panic
  | Ok _ =>
      match GetId str with
      | Err e => Err e
      | Panic => Panic
      | Ok _ =>
          if negb (length (Split str colon) =? 2)%nat
          then Err ErrTooManyColons
          else Ok tt
      end
  end.

Definition Get (str : IdUid) : result (Id * Uid) :=
  match GetId str with
  | Err e => Err e
  | Panic => Panic
  | Ok id =>
      match GetUid str with
      | Err e => Err e
      | Panic => Panic
      | Ok uid => Ok (id, uid)
      end
  end.

Definition getIdSafe (str : IdUid) : result Id :=
  match GetId str with
  | Ok i => Ok i
  | Err _ => Ok 0
  | Panic => Panic
  end.

Definition getUidSafe (str : IdUid) : result Uid :=
  match GetUid str with
  | Ok i => Ok i
  | Err _ => Ok 0
  | Panic => Panic
  end.

(** Modelled from the spec: [GetIdAllowZero] is called by
    [ProcessAnnotations] but iduid.go does not define it. Section 4.1: "a
    relaxed variant permits zero id only while matching is pending"; it is
    [GetId] with the zero check of [getComponent] switched off, the way
    [GetUidAllowZero] is for the uid. *)
Definition GetIdAllowZero (str : IdUid) : result Id :=
  match getComponent str 0 32 true with
  | Ok id => Ok (id mod two32)
  | Err e => Err e
  | Panic => Panic
  end.

(** *** The model records

    The declarations of the model package are not among the sources; the records
    below hold the fields that the sources read or write. *)

(** Modelled from the spec: the [PropertyType] constants are missing.
    Section 3 lists the semantic type tags "integer variants, floating
    point, string, byte vector, string vector, relation-id, date"; the
    names are those the sources use ([PropertyTypeLong], [PropertyTypeDate],
    [PropertyTypeString], [PropertyTypeByteVector],
    [PropertyTypeStringVector]) and their siblings. [PropertyTypeUnset] is
    the zero value of the Go type. *)
Inductive PropertyType : Type :=
| PropertyTypeUnset
| PropertyTypeBool
| PropertyTypeByte
| PropertyTypeShort
| PropertyTypeChar
| PropertyTypeInt
| PropertyTypeLong
| PropertyTypeFloat
| PropertyTypeDouble
| PropertyTypeString
| PropertyTypeDate
| PropertyTypeRelation
| PropertyTypeByteVector
| PropertyTypeStringVector.

Definition PropertyType_eqb (a b : PropertyType) : bool :=
  match a, b with
  | PropertyTypeUnset, PropertyTypeUnset
  | PropertyTypeBool, PropertyTypeBool
  | PropertyTypeByte, PropertyTypeByte
  | PropertyTypeShort, PropertyTypeShort
  | PropertyTypeChar, PropertyTypeChar
  | PropertyTypeInt, PropertyTypeInt
  | PropertyTypeLong, PropertyTypeLong
  | PropertyTypeFloat, PropertyTypeFloat
  | PropertyTypeDouble, PropertyTypeDouble
  | PropertyTypeString, PropertyTypeString
  | PropertyTypeDate, PropertyTypeDate
  | PropertyTypeRelation, PropertyTypeRelation
  | PropertyTypeByteVector, PropertyTypeByteVector
  | PropertyTypeStringVector, PropertyTypeStringVector => true
  | _, _ => false
  end.

(** The integer variants among the type tags. *)
Definition isIntegerType (t : PropertyType) : bool :=
  match t with
  | PropertyTypeByte | PropertyTypeShort | PropertyTypeChar
  | PropertyTypeInt | PropertyTypeLong => true
  | _ => false
  end.

(** [PropertyFlags] is a bit mask. *)
Definition PropertyFlags : Type := Z.

Record Property : Type := mkProperty {
  Name : string;
  Type_ : PropertyType;
  PId : IdUid;
  Flags : PropertyFlags;
  IndexId : option IdUid;
  UidRequest : bool
}.

(** Assignments to one field of a property. *)
Definition setName (p : Property) (n : string) : Property :=
  {| Name := n; Type_ := Type_ p; PId := PId p; Flags := Flags p;
     IndexId := IndexId p; UidRequest := UidRequest p |}.

Definition setType (p : Property) (t : PropertyType) : Property :=
  {| Name := Name p; Type_ := t; PId := PId p; Flags := Flags p;
     IndexId := IndexId p; UidRequest := UidRequest p |}.

Definition setId (p : Property) (i : IdUid) : Property :=
  {| Name := Name p; Type_ := Type_ p; PId := i; Flags := Flags p;
     IndexId := IndexId p; UidRequest := UidRequest p |}.

Definition setUidRequest (p : Property) (b : bool) : Property :=
  {| Name := Name p; Type_ := Type_ p; PId := PId p; Flags := Flags p;
     IndexId := IndexId p; UidRequest := b |}.

(** Language-specific meta information attached to an entity while a source
    file is processed. *)
Inductive EntityMeta : Type := MetaInfo (tag : string).

Record Entity : Type := mkEntity {
  EName : string;
  EId : IdUid;
  Properties : list Property;
  CurrentlyPresent : bool;
  Meta : option EntityMeta
}.

(** State of a [*rand.Rand]: the seed of its source and how many values
    were drawn from it. *)
Record Rand : Type := mkRand { seed : Z; drawn : N }.

Record ModelInfo : Type := mkModelInfo {
  Entities : list Entity;
  MRand : option Rand;
  MinimumParserVersion : Z;
  ModelVersion : Z
}.

(** Modelled from the spec: [CreateEntity] is missing. It is the
    constructor of an entity with the Identifier made of the given id and
    uid (section 3: an Entity has a name, an Identifier and ordered
    Properties), no name and no property yet. *)
Definition CreateEntity (m : ModelInfo) (id : Id) (uid : Uid) : Entity :=
  {| EName := EmptyString; EId := CreateIdUid id uid; Properties := [];
     CurrentlyPresent := false; Meta := None |}.

(** Modelled from the spec: [CreateProperty] is missing. It is the
    constructor of a property with the Identifier made of the given id and
    uid, and every other field at its zero value. *)
Definition CreateProperty (e : Entity) (id : Id) (uid : Uid) : Property :=
  {| Name := EmptyString; Type_ := PropertyTypeUnset;
     PId := CreateIdUid id uid; Flags := 0; IndexId := None;
     UidRequest := false |}.

(** Modelled from the spec: [Property.AddFlag] is missing. Section 3
    gives a property a set of flags; adding one sets its bits in the mask
    and leaves every other field alone. *)
Definition AddFlag (p : Property) (flag : PropertyFlags) : Property :=
  {| Name := Name p; Type_ := Type_ p; PId := PId p;
     Flags := Z.lor (Flags p) flag; IndexId := IndexId p;
     UidRequest := UidRequest p |}.

(** Modelled from the spec: [ModelInfo.EntitiesWithMeta] is missing;
    by its name, the entities of the model whose [Meta] is set. *)
Definition hasMeta (e : Entity) : bool :=
  match Meta e with Some _ => true | None => false end.

End modelinfo.

Import modelinfo.


(* ===================================================================== *)
(** ** binding: [Field] and [ProcessAnnotations] *)
(* ===================================================================== *)

Module binding.

(** [gogenerator.Annotation]. *)
Record Annotation : Type := mkAnnotation { Value : string }.

(** [map[string]*Annotation]: a key may be bound to a nil pointer, which
    [a[k] != nil] treats like an absent key while [len(a)] counts it. *)
Abbreviation Annotations := (gmap string (option Annotation)).

Definition at_ (a : Annotations) (k : string) : option Annotation :=
  match a !! k with
  | Some (Some ann) => Some ann
  | _ => None
  end.

Record Field : Type := mkField {
  FName : string;
  IsSkipped : bool;
  property : Property
}.

Definition CreateField (prop : Property) : Field :=
  {| FName := EmptyString; IsSkipped := false; property := prop |}.

Definition withProperty (field : Field) (p : Property) : Field :=
  {| FName := FName field; IsSkipped := IsSkipped field; property := p |}.

Inductive error : Type :=
| ErrIgnoreOnly        (* to ignore the property, use only the annotation - *)
| ErrNameEmpty         (* name annotation value must not be empty *)
| ErrDateType (t : PropertyType)
    (* invalid underlying type (PropertyType t) for date field; expecting long *)
| ErrUnknownIndexType (value : string)       (* "unknown index type <value>" *)
| ErrSetIndex (msg : string)                 (* the error of [Property.SetIndex] *)
| ErrCantParseUid (cause : NumError)         (* "can't parse uid - <cause>" *)
| ErrCantParsePropertyId (cause : modelinfo.error).
    (* can't parse property Id - <cause> *)

(** What the model package and [strings] provide to this function and is
    not among the sources: the flag constants, [Property.SetIndex] (it may change
    the property and may fail) and [strings.ToLower]. *)
Class ModelPkg : Type := {
  PropertyFlagId : PropertyFlags;
  PropertyFlagIndexed : PropertyFlags;
  PropertyFlagIndexHash : PropertyFlags;
  PropertyFlagIndexHash64 : PropertyFlags;
  PropertyFlagUnique : PropertyFlags;
  SetIndex : Property -> Property * option string;
  ToLower : string -> string
}.

Section ProcessAnnotations.
Context `{ModelPkg}.

Definition SetName (field : Field) (name : string) : Field :=
  {| FName := name; IsSkipped := IsSkipped field;
     property :=
       if (String.length (Name (property field)) =? 0)%nat
       then setName (property field) (ToLower name)
       else property field |}.

(** One [if a[...] != nil { ... }] block of [ProcessAnnotations]: the
    field as the block leaves it, and whether the function goes on, returns
    an error or panics. *)
Definition step : Type := Field -> Field * outcome error unit.

Definition andThen (s1 s2 : step) : step :=
  fun field =>
    match s1 field with
    | (field', Ok _) => s2 field'
    | r => r
    end.

Definition callSetIndex : step :=
  fun field =>
    match SetIndex (property field) with
    | (p, Some msg) => (withProperty field p, Err (ErrSetIndex msg))
    | (p, None) => (withProperty field p, Ok tt)
    end.

Definition idStep (a : Annotations) : step :=
  fun field =>
    match at_ a "id" with
    | Some _ =>
        (withProperty field (AddFlag (property field) PropertyFlagId), Ok tt)
    | None => (field, Ok tt)
    end.

Definition nameStep (a : Annotations) : step :=
  fun field =>
    match at_ a "name" with
    | Some ann =>
        if (String.length (Value ann) =? 0)%nat then (field, Err ErrNameEmpty)
        else (withProperty field
                (setName (property field) (ToLower (Value ann))), Ok tt)
    | None => (field, Ok tt)
    end.

Definition dateStep (a : Annotations) : step :=
  fun field =>
    match at_ a "date" with
    | Some _ =>
        if negb (PropertyType_eqb (Type_ (property field)) PropertyTypeLong)
        then (field, Err (ErrDateType (Type_ (property field))))
        else (withProperty field
                (setType (property field) PropertyTypeDate), Ok tt)
    | None => (field, Ok tt)
    end.

Definition indexStep (a : Annotations) : step :=
  fun field =>
    match at_ a "index" with
    | Some ann =>
        let v := ToLower (Value ann) in
        let flagged (flag : PropertyFlags) : Field * outcome error unit :=
          callSetIndex (withProperty field (AddFlag (property field) flag)) in
        if String.eqb v "" then
          if PropertyType_eqb (Type_ (property field)) PropertyTypeString
          then flagged PropertyFlagIndexHash
          else flagged PropertyFlagIndexed
        else if String.eqb v "value" then flagged PropertyFlagIndexed
        else if String.eqb v "hash" then flagged PropertyFlagIndexHash
        else if String.eqb v "hash64" then flagged PropertyFlagIndexHash64
        else (field, Err (ErrUnknownIndexType (Value ann)))
    | None => (field, Ok tt)
    end.

Definition uniqueStep (a : Annotations) : step :=
  fun field =>
    match at_ a "unique" with
    | Some _ =>
        callSetIndex
          (withProperty field (AddFlag (property field) PropertyFlagUnique))
    | None => (field, Ok tt)
    end.

Definition uidStep (a : Annotations) : step :=
  fun field =>
    match at_ a "uid" with
    | Some ann =>
        if (String.length (Value ann) =? 0)%nat then
          (withProperty field (setUidRequest (property field) true), Ok tt)
        else
          match ParseUint (Value ann) 64 with
          | inl err => (field, Err (ErrCantParseUid err))
          | inr uid =>
              match GetIdAllowZero (PId (property field)) with
              | Err err => (field, Err (ErrCantParsePropertyId err))
              | Panic => (field, Panic)
              | Ok id =>
                  (withProperty field
                     (setId (property field) (CreateIdUid id uid)), Ok tt)
              end
          end
    | None => (field, Ok tt)
    end.

(** [ProcessAnnotations]: the field is changed in place, so the field is
    returned on the error paths too. *)
Definition ProcessAnnotations (a : Annotations) : step :=
  fun field =>
    match at_ a "-" with
    | Some ann =>
        if negb (size a =? 1)%nat || negb (String.eqb (Value ann) "")
        then (field, Err ErrIgnoreOnly)
        else ({| FName := FName field; IsSkipped := true;
                 property := property field |}, Ok tt)
    | None =>
        andThen (idStep a)
          (andThen (nameStep a)
             (andThen (dateStep a)
                (andThen (indexStep a)
                   (andThen (uniqueStep a) (uidStep a))))) field
    end.

End ProcessAnnotations.

End binding.

(* ===================================================================== *)
(** ** c/schema-reader.go *)
(* ===================================================================== *)

Module reflection.

(** [reflection.BaseType] of the FlatBuffers reflection schema. *)
Inductive BaseType : Type :=
| BaseTypeNone | BaseTypeUType | BaseTypeBool
| BaseTypeByte | BaseTypeUByte | BaseTypeShort | BaseTypeUShort
| BaseTypeInt | BaseTypeUInt | BaseTypeLong | BaseTypeULong
| BaseTypeFloat | BaseTypeDouble | BaseTypeString
| BaseTypeVector | BaseTypeObj | BaseTypeUnion.

(** What the accessors of a parsed schema return: [Type.BaseType()] and
    [Type.Element()], [Field.Name()] and [Field.Type(nil)] (nil when the
    field has none), [Object.Name()] and the vector behind
    [Object.FieldsLength()] / [Object.Fields(&f, i)], and the vector behind
    [Schema.ObjectsLength()] / [Schema.Objects(&o, i)]. *)
(** [reflection.Type]. *)
Record FbType : Type := mkType { BaseType_ : BaseType; Element : BaseType }.

Record Field : Type := mkField { FieldName : string; FieldType : option FbType }.

Record Object : Type := mkObject { ObjectName : string; ObjectFields : list Field }.

Record Schema : Type := mkSchema { SchemaObjects : list Object }.

Definition ObjectsLength (s : Schema) : nat := length (SchemaObjects s).
Definition Objects (s : Schema) (j : nat) : option Object :=
  nth_error (SchemaObjects s) j.
Definition FieldsLength (o : Object) : nat := length (ObjectFields o).
Definition Fields (o : Object) (j : nat) : option Field :=
  nth_error (ObjectFields o) j.

End reflection.

Module cgenerator.

Import reflection.

Inductive error : Type :=
| ErrCantAccessObject (i : nat)                    (* "can't access object i" *)
| ErrObject (i : nat) (name : string) (cause : error)  (* "object i name: cause" *)
| ErrCantAccessField (i : nat)                     (* "can't access field i" *)
| ErrField (i : nat) (name : string) (cause : error)   (* "field i name: cause" *)
| ErrNoType                      (* "can't access Type() from the source schema" *)
| ErrUnsupportedVectorElement (t : BaseType)
| ErrUnsupportedType (t : BaseType).

Definition setEntityName (e : Entity) (n : string) : Entity :=
  {| EName := n; EId := EId e; Properties := Properties e;
     CurrentlyPresent := CurrentlyPresent e; Meta := Meta e |}.

Definition appendProperty (e : Entity) (p : Property) : Entity :=
  {| EName := EName e; EId := EId e; Properties := Properties e ++ [p];
     CurrentlyPresent := CurrentlyPresent e; Meta := Meta e |}.

Definition appendEntity (m : ModelInfo) (e : Entity) : ModelInfo :=
  {| Entities := Entities m ++ [e]; MRand := MRand m;
     MinimumParserVersion := MinimumParserVersion m;
     ModelVersion := ModelVersion m |}.

(** [for i := start; i < start + count; i++ { body }], leaving at the first
    error with the state as it is then. *)
Fixpoint forRange {S : Type} (count start : nat)
    (body : nat -> S -> S * option error) (s : S) : S * option error :=
  match count with
  | O => (s, None)
  | Datatypes.S count' =>
      match body start s with
      | (s', None) => forRange count' (Datatypes.S start) body s'
      | r => r
      end
  end.

Section Reader.
(** The table [fbsTypeToObxType] is not among the sources; a base type without an
    entry maps to the zero value [PropertyTypeUnset]. *)
Variable fbsTypeToObxType : BaseType -> PropertyType.

Definition readObjectField (field : Field) (entity : Entity)
    : Entity * option error :=
  let property := setName (CreateProperty entity 0 0) (FieldName field) in
  match FieldType field with
  | None => (entity, Some ErrNoType)
  | Some fbsType =>
      let fbsBaseType := BaseType_ fbsType in
      let typed : error + Property :=
        match fbsBaseType with
        | BaseTypeVector =>
            match Element fbsType with
            | BaseTypeString =>
                inr (setType property PropertyTypeStringVector)
            | BaseTypeByte | BaseTypeUByte =>
                inr (setType property PropertyTypeByteVector)
            | el => inl (ErrUnsupportedVectorElement el)
            end
        | _ => inr (setType property (fbsTypeToObxType fbsBaseType))
        end in
      match typed with
      | inl err => (entity, Some err)
      | inr property =>
          if PropertyType_eqb (Type_ property) PropertyTypeUnset
          then (entity, Some (ErrUnsupportedType fbsBaseType))
          else (appendProperty entity property, None)
      end
  end.

(** [readObject]: the entity joins the model only after all its fields
    were read. *)
Definition readObject (object : Object) (model : ModelInfo)
    : ModelInfo * option error :=
  let entity := setEntityName (CreateEntity model 0 0) (ObjectName object) in
  let fields :=
    forRange (FieldsLength object) 0
      (fun i entity =>
         match Fields object i with
         | None => (entity, Some (ErrCantAccessField i))
         | Some field =>
             match readObjectField field entity with
             | (entity', Some err) =>
                 (entity', Some (ErrField i (FieldName field) err))
             | r => r
             end
         end) entity in
  match fields with
  | (_, Some err) => (model, Some err)
  | (entity', None) => (appendEntity model entity', None)
  end.

Definition read (schema : Schema) (model : ModelInfo)
    : ModelInfo * option error :=
  forRange (ObjectsLength schema) 0
    (fun i model =>
       match Objects schema i with
       | None => (model, Some (ErrCantAccessObject i))
       | Some object =>
           match readObject object model with
           | (model', Some err) =>
               (model', Some (ErrObject i (ObjectName object) err))
           | r => r
           end
       end) model.

End Reader.

End cgenerator.

(* ===================================================================== *)
(** ** generator: [Process], [createBinding], [createModel] *)
(* ===================================================================== *)

Module generator.

(** What [os.Stat] tells about a path: [IsDir()] and [Mode().IsRegular()]. *)
Record FileInfo : Type := mkFileInfo { IsDir : bool; IsRegular : bool }.

(** [Options], without its [CodeGenerator] field: the generator is passed
    next to the options, its methods take these options. *)
Record Options : Type := mkOptions {
  InPath : string;
  OutPath : string;
  OutHeadersPath : string;
  ModelInfoFile_ : string;
  ORand : option Rand
}.

(** The [CodeGenerator] interface, over the state [World] of the file
    system. A Go [error] is its message; [fmt.Errorf("...: %s", err)]
    prepends to it. *)
Record CodeGenerator (World : Type) : Type := mkCodeGenerator {
  IsGeneratedFile : string -> bool;
  IsSourceFile : string -> bool;
  ParseSource : string -> World -> string + ModelInfo;
  WriteBindingFiles :
    string -> Options -> ModelInfo -> World -> World * option string;
  WriteModelBindingFile :
    Options -> ModelInfo -> World -> World * option string
}.
Arguments IsGeneratedFile {World}.
Arguments IsSourceFile {World}.
Arguments ParseSource {World}.
Arguments WriteBindingFiles {World}.
Arguments WriteModelBindingFile {World}.

(** What the operating system, the clock and the model package provide, by
    their Go names ([os.MkdirAll], [os.Stat], [filepath.Glob], [os.Remove],
    [filepath.Dir], [filepath.Join], [runtime.GOOS], the nanoseconds of
    [time.Now], [model.ModelVersion], [model.LoadOrCreateModel] and the
    methods of [ModelInfo]); none of it is among the sources. The model
    package's functions work on the model in place, so they return it, also
    when they fail. *)
Class Env (World : Type) : Type := mkEnv {
  MkdirAll : string -> World -> World * option string;
  Stat : string -> World -> string + FileInfo;
  Glob : string -> World -> string + list string;
  Remove : string -> World -> World * option string;
  Dir : string -> string;
  Join : string -> string -> string;
  GOOS : string;
  Now : World -> Z;
  model_ModelVersion : Z;
  LoadOrCreateModel : string -> World -> World * (string + ModelInfo);
  Close : ModelInfo -> World -> World;
  Validate : ModelInfo -> option string;
  Finalize : ModelInfo -> ModelInfo * option string;
  RemoveEntity : Entity -> ModelInfo -> ModelInfo * option string;
  Write : ModelInfo -> World -> World * option string;
  mergeBindingWithModelInfo :
    ModelInfo -> ModelInfo -> ModelInfo * option string
}.

(** The calls that reach the registry or the disk, in the order made, each
    with the error it returned ([None] for nil). What [fmt.Printf] prints is
    not part of the model. *)
Inductive Event : Type :=
| EvMkdirAll (path : string) (err : option string)
| EvRemoveFile (path : string) (err : option string)
| EvLoad (file : string) (err : option string)
| EvValidate (err : option string)
| EvParseSource (file : string) (err : option string)
| EvMerge (file : string) (err : option string)
| EvFinalize (err : option string)
| EvWriteBindingFiles (file : string) (err : option string)
| EvRemoveEntity (entity : Entity) (err : option string)
| EvWrite (err : option string)
| EvWriteModelBindingFile (err : option string)
| EvClose.

(** How a call ends: with a value, with an error, or not at all within the
    recursion depth granted to [pathForEach]. *)
Inductive res (A : Type) : Type :=
| Val (a : A)
| Fail (err : string)
| OutOfFuel.
Arguments Val {A} a.
Arguments Fail {A} err.
Arguments OutOfFuel {A}.

Definition M (S A : Type) : Type := S -> S * res A.

Definition ret {S A : Type} (a : A) : M S A := fun s => (s, Val a).

Definition bind {S A B : Type} (m : M S A) (k : A -> M S B) : M S B :=
  fun s =>
    match m s with
    | (s', Val a) => k a s'
    | (s', Fail err) => (s', Fail err)
    | (s', OutOfFuel) => (s', OutOfFuel)
    end.

Declare Scope gen_scope.
Delimit Scope gen_scope with gen.
Notation "x <- m ;; k" := (bind m (fun x => k))
  (at level 100, m at next level, right associativity) : gen_scope.
Notation "m ;; k" := (bind m (fun _ => k))
  (at level 100, right associativity) : gen_scope.

(** [fmt.Errorf(prefix + "%s", err)] around a failing call. *)
Definition wrap {S A : Type} (prefix : string) (m : M S A) : M S A :=
  fun s =>
    match m s with
    | (s', Fail err) => (s', Fail (prefix +:+ err))
    | r => r
    end.

Definition errRes (e : option string) : res unit :=
  match e with
  | None => Val tt
  | Some err => Fail err
  end.

(** [for _, x := range xs { if err := body(x); err != nil { return err } }]. *)
Fixpoint forEach {S A : Type} (xs : list A) (body : A -> M S unit) : M S unit :=
  match xs with
  | [] => ret tt
  | x :: xs' => bind (body x) (fun _ => forEach xs' body)
  end.

Definition recursionSuffix : string := "/...".

Definition setEntityMeta (e : Entity) (m : option EntityMeta) : Entity :=
  {| EName := EName e; EId := EId e; Properties := Properties e;
     CurrentlyPresent := CurrentlyPresent e; Meta := m |}.

Definition setCurrentlyPresent (e : Entity) (b : bool) : Entity :=
  {| EName := EName e; EId := EId e; Properties := Properties e;
     CurrentlyPresent := b; Meta := Meta e |}.

Definition setEntities (m : ModelInfo) (es : list Entity) : ModelInfo :=
  {| Entities := es; MRand := MRand m;
     MinimumParserVersion := MinimumParserVersion m;
     ModelVersion := ModelVersion m |}.

Definition setRand (m : ModelInfo) (r : option Rand) : ModelInfo :=
  {| Entities := Entities m; MRand := r;
     MinimumParserVersion := MinimumParserVersion m;
     ModelVersion := ModelVersion m |}.

Definition setVersions (m : ModelInfo) (minParser version : Z) : ModelInfo :=
  {| Entities := Entities m; MRand := MRand m;
     MinimumParserVersion := minParser; ModelVersion := version |}.

Definition setORand (o : Options) (r : option Rand) : Options :=
  {| InPath := InPath o; OutPath := OutPath o;
     OutHeadersPath := OutHeadersPath o; ModelInfoFile_ := ModelInfoFile_ o;
     ORand := r |}.

Definition setModelInfoFile (o : Options) (f : string) : Options :=
  {| InPath := InPath o; OutPath := OutPath o;
     OutHeadersPath := OutHeadersPath o; ModelInfoFile_ := f;
     ORand := ORand o |}.

(** [rand.New(rand.NewSource(seed))]. *)
Definition rand_New (seed : Z) : Rand := {| seed := seed; drawn := 0%N |}.

Section Driver.
Context {World : Type} `{Env World}.
Variable gen : CodeGenerator World.

(** The file system and the calls made so far. *)
Record Sys : Type := mkSys { world : World; trace : list Event }.

(** [Sys] and the registry that [modelInfo] points to. *)
Record St : Type := mkSt { sys : Sys; model : ModelInfo }.

Definition logSys (ev : Event) (w : World) (s : Sys) : Sys :=
  {| world := w; trace := trace s ++ [ev] |}.

Definition worldOf (s : St) : World := world (sys s).

(** A call on the registry: the registry as the call leaves it, the
    event, and the world unchanged. *)
Definition onModel (ev : option string -> Event)
    (call : ModelInfo -> ModelInfo * option string) : M St unit :=
  fun s =>
    match call (model s) with
    | (m', e) =>
        ({| sys := logSys (ev e) (worldOf s) (sys s); model := m' |},
         errRes e)
    end.

(** A call that writes files from the registry. *)
Definition onWorld (ev : option string -> Event)
    (call : ModelInfo -> World -> World * option string) : M St unit :=
  fun s =>
    match call (model s) (worldOf s) with
    | (w', e) =>
        ({| sys := logSys (ev e) w' (sys s); model := model s |},
         errRes e)
    end.

Definition ModelInfoFile (dir : string) : string :=
  Join dir "objectbox-model.json".

Definition PathIsDirOrPattern (path : string) (w : World) : bool :=
  if HasSuffix path recursionSuffix then true
  else if ContainsAny path "*?["
          || (negb (String.eqb GOOS "windows") && ContainsAny path "\")
  then true
  else match Stat path w with
       | inr finfo => IsDir finfo
       | inl _ => false
       end.

(** [pathForEach]: [fuel] bounds the depth of the recursion into
    sub-directories; [rd] reads the file system out of the state. *)
Fixpoint pathForEach {S : Type} (rd : S -> World) (fuel : nat)
    (path : string) (fn : string -> M S unit) {struct fuel} : M S unit :=
  match fuel with
  | O => fun s => (s, OutOfFuel)
  | Datatypes.S fuel' =>
      fun s =>
        let recursive := HasSuffix path recursionSuffix in
        let path :=
          if recursive then
            substring 0 (String.length path - String.length recursionSuffix) path
              +:+ "/*"
          else
            match Stat path (rd s) with
            | inr finfo => if IsDir finfo then path +:+ "/*" else path
            | inl _ => path
            end in
        match Glob path (rd s) with
        | inl err => (s, Fail err)
        | inr matches =>
            forEach matches
              (fun subpath s =>
                 match Stat subpath (rd s) with
                 | inl err => (s, Fail err)
                 | inr finfo =>
                     if recursive && IsDir finfo then
                       pathForEach rd fuel' (subpath +:+ recursionSuffix) fn s
                     else if IsRegular finfo then fn subpath s
                     else (s, Val tt)
                 end) s
        end
  end.

Definition Clean (fuel : nat) (path : string) : M Sys unit :=
  pathForEach world fuel path
    (fun filePath s =>
       if negb (IsGeneratedFile gen filePath) then (s, Val tt)
       else
         match Remove filePath (world s) with
         | (w', e) => (logSys (EvRemoveFile filePath e) w' s, errRes e)
         end).

Definition clearMeta (m : ModelInfo) : ModelInfo :=
  setEntities m
    (map (fun entity => if hasMeta entity then setEntityMeta entity None
                        else entity) (Entities m)).

Definition markPresent (m : ModelInfo) : ModelInfo :=
  setEntities m
    (map (fun entity => if hasMeta entity then setCurrentlyPresent entity true
                        else entity) (Entities m)).

Definition update (f : ModelInfo -> ModelInfo) : M St unit :=
  fun s => ({| sys := sys s; model := f (model s) |}, Val tt).

Definition parseSource (filePath : string) : M St ModelInfo :=
  fun s =>
    match ParseSource gen filePath (worldOf s) with
    | inl err =>
        ({| sys := logSys (EvParseSource filePath (Some err)) (worldOf s) (sys s);
            model := model s |}, Fail err)
    | inr currentModel =>
        ({| sys := logSys (EvParseSource filePath None) (worldOf s) (sys s);
            model := model s |}, Val currentModel)
    end.

Definition finalize : M St unit :=
  wrap "model finalization failed: " (onModel EvFinalize Finalize).

Definition createBinding (fuel : nat) (options : Options) : M St unit :=
  pathForEach worldOf fuel (InPath options)
    (fun filePath =>
       if negb (IsSourceFile gen filePath) then ret tt
       else
         (update clearMeta ;;
          currentModel <- parseSource filePath ;;
          wrap "can't merge model information: "
            (onModel (EvMerge filePath)
               (mergeBindingWithModelInfo currentModel)) ;;
          finalize ;;
          onWorld (EvWriteBindingFiles filePath)
            (WriteBindingFiles gen filePath options) ;;
          update markPresent)%gen).

(** The entities are collected first and removed afterwards; each is
    handed to [RemoveEntity] as it was when collected. *)
Definition createModel (options : Options) : M St unit :=
  fun s =>
    ((if PathIsDirOrPattern (InPath options) (worldOf s) then
        (let removedEntities :=
           filter (fun entity => negb (CurrentlyPresent entity))
             (Entities (model s)) in
         forEach removedEntities
           (fun entity =>
              wrap ("removing entity " +:+ EName entity +:+ " failed: ")
                (onModel (EvRemoveEntity entity) (RemoveEntity entity))) ;;
         finalize)
      else ret tt) ;;
     wrap ("can't write model-info file " +:+ ModelInfoFile_ options +:+ ": ")
       (onWorld EvWrite Write) ;;
     onWorld EvWriteModelBindingFile (WriteModelBindingFile gen options))%gen s.

Definition mkdir (path : string) : M Sys unit :=
  fun s =>
    match MkdirAll path (world s) with
    | (w', e) => (logSys (EvMkdirAll path e) w' s, errRes e)
    end.

(** Lines 130-133: the random source the run uses. *)
Definition defaultRand (options : Options) (w : World) : option Rand :=
  match ORand options with
  | None => Some (rand_New (Now w))
  | Some r => Some r
  end.

(** What [Process] leaves behind: the file system and the calls made, the
    registry if one was loaded, and the returned error. *)
Record Outcome : Type := mkOutcome {
  out_sys : Sys;
  out_model : option ModelInfo;
  out_res : res unit
}.

(** [Process] up to the loading of the model: output directories, the
    implicit clean-up. *)
Definition prepare (fuel : nat) (options : Options) : M Sys unit :=
  ((if negb (String.length (OutPath options) =? 0)%nat then
      wrap ("can't create output path '" +:+ OutPath options +:+ "': ")
        (mkdir (OutPath options))
    else ret tt) ;;
   (if negb (String.length (OutHeadersPath options) =? 0)%nat then
      wrap ("can't create output headers path '" +:+ OutPath options +:+ "': ")
        (mkdir (OutHeadersPath options))
    else ret tt) ;;
   (fun s =>
      if PathIsDirOrPattern (InPath options) (world s) then
        let cleanPath :=
          if negb (String.length (OutPath options) =? 0)%nat
          then OutPath options else InPath options in
        Clean fuel cleanPath s
      else (s, Val tt)))%gen.

(** [Process] from the choice of the random source to the loaded model:
    the options as completed, and the registry with the random source
    installed ([modelInfo.Rand = options.Rand]). *)
Definition loadModel (options : Options) : M Sys (Options * ModelInfo) :=
  fun s =>
    let options := setORand options (defaultRand options (world s)) in
    let options :=
      if (String.length (ModelInfoFile_ options) =? 0)%nat
      then setModelInfoFile options (ModelInfoFile (Dir (InPath options)))
      else options in
    match LoadOrCreateModel (ModelInfoFile_ options) (world s) with
    | (w', inl err) =>
        (logSys (EvLoad (ModelInfoFile_ options) (Some err)) w' s,
         Fail ("can't init ModelInfo: " +:+ err))
    | (w', inr modelInfo) =>
        (logSys (EvLoad (ModelInfoFile_ options) None) w' s,
         Val (options, setRand modelInfo (ORand options)))
    end.

(** [Process] on the loaded model: validation, the upgrade of the
    versions, the bindings and the model. *)
Definition processModel (fuel : nat) (options : Options) : M St unit :=
  (wrap "invalid ModelInfo loaded: "
     (onModel EvValidate (fun m => (m, Validate m))) ;;
   update (fun m => setVersions m model_ModelVersion model_ModelVersion) ;;
   createBinding fuel options ;;
   createModel options)%gen.

Definition Process (fuel : nat) (options : Options) (w : World) : Outcome :=
  match bind (prepare fuel options) (fun _ => loadModel options)
          {| world := w; trace := [] |} with
  | (s1, Fail err) => {| out_sys := s1; out_model := None; out_res := Fail err |}
  | (s1, OutOfFuel) => {| out_sys := s1; out_model := None; out_res := OutOfFuel |}
  | (s1, Val (options, modelInfo)) =>
      match processModel fuel options {| sys := s1; model := modelInfo |} with
      | (s2, r) =>
(* defer modelInfo.Close() *)
{| out_sys := logSys EvClose (Close (model s2) (worldOf s2)) (sys s2);
   out_model := Some (model s2);
   out_res := r |}
end
end.

End Driver.

End generator.

(* ===================================================================== *)
(** ** Vocabulary of the statements *)
(* ===================================================================== *)

Module IdUidSpec.

(** Decimal digit strings and their value. *)
Fixpoint all_digits (s : string) : bool :=
  match s with
  | EmptyString => true
  | String c s' => is_digit c && all_digits s'
  end.

Fixpoint digitsVal (n : Z) (s : string) : Z :=
  match s with
  | EmptyString => n
  | String c s' => digitsVal (n * 10 + digit_val c) s'
  end.

Definition leadingZero (s : string) : bool :=
  match s with
  | String c _ => Ascii.eqb c "0"%char
  | EmptyString => false
  end.

(** An identifier none of whose components starts with the digit 0: the
    form [CreateIdUid] writes. *)
Definition canonical (s : IdUid) : bool :=
  forallb (fun c => negb (leadingZero c)) (Split s colon).

(** [strings.Join(l, ":")]. *)
Fixpoint joinColon (l : list string) : string :=
  match l with
  | [] => EmptyString
  | [x] => x
  | x :: l' => x +:+ String colon (joinColon l')
  end.

Definition hasColon (s : string) : bool := ContainsAny s ":".

(** The largest value of an unsigned integer of [bits] bits. *)
Definition maxOf (bits : Z) : Z := 2 ^ bits - 1.

End IdUidSpec.

Import IdUidSpec.

Module AnnotationSpec.

(** The block of an annotation that is not there. *)
Definition skip : binding.step := fun field => (field, Ok tt).

End AnnotationSpec.

Module ReaderSpec.

Import reflection cgenerator.

(** The Identifier of a candidate: both components zero. *)
Definition unsetIdUid : IdUid := CreateIdUid 0 0.

Definition identifiersUnset (e : Entity) : Prop :=
  EId e = unsetIdUid /\ Forall (fun p => PId p = unsetIdUid) (Properties e).

(** [model'] is [model] with the entities [new] appended, and [P new]. *)
Definition extends (model : ModelInfo) (P : list Entity -> Prop)
    (model' : ModelInfo) : Prop :=
  exists new, Entities model' = Entities model ++ new /\ P new.

Section Bodies.
Variable table : BaseType -> PropertyType.

(** The bodies of the two loops of the reader. *)
Definition fieldsBody (object : Object)
    : nat -> Entity -> Entity * option error :=
  fun i entity =>
    match Fields object i with
    | None => (entity, Some (ErrCantAccessField i))
    | Some field =>
        match readObjectField table field entity with
        | (entity', Some err) => (entity', Some (ErrField i (FieldName field) err))
        | r => r
        end
    end.

Definition objectsBody (schema : Schema)
    : nat -> ModelInfo -> ModelInfo * option error :=
  fun i model =>
    match Objects schema i with
    | None => (model, Some (ErrCantAccessObject i))
    | Some object =>
        match readObject table object model with
        | (model', Some err) => (model', Some (ErrObject i (ObjectName object) err))
        | r => r
        end
    end.

End Bodies.

End ReaderSpec.

Import ReaderSpec.

Module TraceSpec.

Import generator.

(** Where a run stands, read off the calls made so far: the registry
    untouched or finalized since it last changed ([Settled]), changed by a
    merge or a removal and not finalized since ([Pending]), a call failed
    ([Failed], with the error [Process] then returns when the call fixes
    it), the model file written ([Written]), or a call made that has no
    place there ([Bad]). *)
Inductive Phase : Type :=
| Settled
| Pending
| Failed (returned : option string)
| Written
| Bad.

Definition errOf (ev : Event) : option string :=
  match ev with
  | EvMkdirAll _ e | EvRemoveFile _ e | EvLoad _ e | EvValidate e
  | EvParseSource _ e | EvMerge _ e | EvFinalize e | EvWriteBindingFiles _ e
  | EvRemoveEntity _ e | EvWrite e | EvWriteModelBindingFile e => e
  | EvClose => None
  end.

(** The call returned a nil error. *)
Definition succeeded (ev : Event) : bool :=
  match errOf ev with None => true | Some _ => false end.

(** Where a failing call leaves the run: [createBinding] and [finalize] put
    a fixed text before the error of a merge and of a [Finalize]. *)
Definition fails (ev : Event) : Phase :=
  match ev with
  | EvMerge _ (Some e) => Failed (Some ("can't merge model information: " +:+ e))
  | EvFinalize (Some e) => Failed (Some ("model finalization failed: " +:+ e))
  | _ => Failed None
  end.

Definition next (q : Phase) (ev : Event) : Phase :=
  match q with
  | Bad => Bad
  | Failed o => match ev with EvClose => Failed o | _ => Bad end
  | Written =>
      match ev with
      | EvWriteModelBindingFile None => Written
      | EvWriteModelBindingFile (Some _) => Failed None
      | EvClose => Written
      | _ => Bad
      end
  | Settled | Pending =>
      match ev with
      | EvWrite e =>
          match q, e with
          | Settled, None => Written
          | Settled, Some _ => Failed None
          | _, _ => Bad
          end
      | EvWriteModelBindingFile _ => Bad
      | EvClose => q
      | _ =>
          if succeeded ev then
            match ev with
            | EvMerge _ _ | EvRemoveEntity _ _ => Pending
            | EvFinalize _ => Settled
            | _ => q
            end
          else fails ev
      end
  end.

Definition phase (tr : list Event) : Phase := fold_left next tr Settled.

Definition pend (d : bool) (ev : Event) : bool :=
  match ev with
  | EvMerge _ _ | EvRemoveEntity _ _ => true
  | EvFinalize None => false
  | _ => d
  end.

(** A merge or a removal that no later successful [Finalize] follows. *)
Definition unfinalized (tr : list Event) : bool := fold_left pend tr false.

(** The calls that may follow the writing of the model file. *)
Definition afterWrite (ev : Event) : bool :=
  match ev with
  | EvWriteModelBindingFile _ | EvClose => true
  | _ => false
  end.

Definition isWrite (ev : Event) : bool :=
  match ev with EvWrite _ => true | _ => false end.

Definition isClose (ev : Event) : bool :=
  match ev with EvClose => true | _ => false end.

Definition isFinalize (ev : Event) : bool :=
  match ev with EvFinalize _ => true | _ => false end.

(** The entities handed to [RemoveEntity], in the order of the calls. *)
Definition removedBy (evs : list Event) : list Entity :=
  flat_map (fun ev => match ev with EvRemoveEntity e _ => [e] | _ => [] end) evs.

Definition running (q : Phase) : Prop := q = Settled \/ q = Pending.

Definition flag (q : Phase) : bool :=
  match q with Pending => true | _ => false end.

(** What a call promises about the phase: [Q] when it returns a value; when
    it fails with [e], a phase that no failure or this failure explains; no
    call runs out of fuel once the registry was touched. *)
Definition post {A : Type} (Q : Phase -> Prop) (r : res A) (q : Phase) : Prop :=
  match r with
  | Val _ => Q q
  | Fail e => q = Settled \/ q = Failed None \/ q = Failed (Some e)
  | OutOfFuel => q = Settled
  end.

Definition spec {S A : Type} (tr : S -> list Event)
    (P : Phase -> Prop) (m : M S A) (Q : Phase -> Prop) : Prop :=
  forall s, P (phase (tr s)) -> post Q (snd (m s)) (phase (tr (fst (m s)))).

Section Driver.
Context {World : Type} `{Env World}.
Variable gen : CodeGenerator World.

Definition trSys (s : @Sys World) : list Event := trace s.
Definition trSt (s : @St World) : list Event := trace (sys s).

(** One turn of the removal loop of [createModel]. *)
Definition removeOne (entity : Entity) : M (@St World) unit :=
  wrap ("removing entity " +:+ EName entity +:+ " failed: ")
    (onModel (EvRemoveEntity entity) (RemoveEntity entity)).

(** The end of [createModel]: [Write], then [WriteModelBindingFile]. *)
Definition writeModel (options : Options) : M (@St World) unit :=
  (wrap ("can't write model-info file " +:+ ModelInfoFile_ options +:+ ": ")
     (onWorld EvWrite Write) ;;
   onWorld EvWriteModelBindingFile (WriteModelBindingFile gen options))%gen.

End Driver.

(** Case analysis on a call and on whether it failed. *)
Ltac each_event ev :=
  destruct ev as [? [?|]|? [?|]|? [?|]|[?|]|? [?|]|? [?|]|[?|]|? [?|]|? [?|]|[?|]|[?|]|].

(** An environment with another clock. *)
Definition withNow {World : Type} (E : Env World) (now : World -> Z) : Env World :=
  {| MkdirAll := @MkdirAll _ E; Stat := @Stat _ E; Glob := @Glob _ E;
     Remove := @Remove _ E; Dir := @Dir _ E; Join := @Join _ E; GOOS := @GOOS _ E;
     Now := now;
     model_ModelVersion := @model_ModelVersion _ E;
     LoadOrCreateModel := @LoadOrCreateModel _ E; Close := @Close _ E;
     Validate := @Validate _ E; Finalize := @Finalize _ E;
     RemoveEntity := @RemoveEntity _ E; Write := @Write _ E;
     mergeBindingWithModelInfo := @mergeBindingWithModelInfo _ E |}.

End TraceSpec.

(* ===================================================================== *)
(** ** Sample instances for the examples *)
(* ===================================================================== *)

Module Samples.

Import generator.

(** [strings.ToLower] on ASCII letters. *)
Definition lower (c : ascii) : ascii :=
  if (65 <=? byte_of c) && (byte_of c <=? 90)
  then ascii_of_N (N_of_ascii c + 32) else c.

Fixpoint ToLowerASCII (s : string) : string :=
  match s with
  | EmptyString => EmptyString
  | String c s' => String (lower c) (ToLowerASCII s')
  end.

(** An index may be set once. *)
Definition setIndexOnce (p : Property) : Property * option string :=
  match IndexId p with
  | Some _ => (p, Some "index is already defined")
  | None =>
      ({| Name := Name p; Type_ := Type_ p; PId := PId p; Flags := Flags p;
          IndexId := Some EmptyString; UidRequest := UidRequest p |}, None)
  end.

Definition pkg : binding.ModelPkg := {|
  binding.PropertyFlagId := 1;
  binding.PropertyFlagIndexed := 8;
  binding.PropertyFlagIndexHash := 2048;
  binding.PropertyFlagIndexHash64 := 4096;
  binding.PropertyFlagUnique := 32;
  binding.SetIndex := setIndexOnce;
  binding.ToLower := ToLowerASCII
|}.

Definition prop (t : PropertyType) (id : IdUid) : Property :=
  {| Name := "created"; Type_ := t; PId := id; Flags := 0; IndexId := None;
     UidRequest := false |}.

Definition ann (v : string) : option binding.Annotation :=
  Some (binding.mkAnnotation v).

(** A table from FlatBuffers base types to property types. *)
Definition fbsTypeToObxType (t : reflection.BaseType) : PropertyType :=
  match t with
  | reflection.BaseTypeBool => PropertyTypeBool
  | reflection.BaseTypeByte | reflection.BaseTypeUByte => PropertyTypeByte
  | reflection.BaseTypeShort | reflection.BaseTypeUShort => PropertyTypeShort
  | reflection.BaseTypeInt | reflection.BaseTypeUInt => PropertyTypeInt
  | reflection.BaseTypeLong | reflection.BaseTypeULong => PropertyTypeLong
  | reflection.BaseTypeFloat => PropertyTypeFloat
  | reflection.BaseTypeDouble => PropertyTypeDouble
  | reflection.BaseTypeString => PropertyTypeString
  | _ => PropertyTypeUnset
  end.

Definition scalar (n : string) (t : reflection.BaseType) : reflection.Field :=
  {| reflection.FieldName := n;
     reflection.FieldType :=
       Some {| reflection.BaseType_ := t;
               reflection.Element := reflection.BaseTypeNone |} |}.

(** [table Task { id:ulong; text:string; }] *)
Definition taskSchema : reflection.Schema :=
  {| reflection.SchemaObjects :=
       [ {| reflection.ObjectName := "Task";
            reflection.ObjectFields :=
              [ scalar "id" reflection.BaseTypeULong;
                scalar "text" reflection.BaseTypeString ] |} ] |}.

Definition noModel : ModelInfo :=
  {| Entities := []; MRand := None; MinimumParserVersion := 0; ModelVersion := 0 |}.

(** A small file system: the paths that exist with what [os.Stat] tells,
    and the registry last written to the model file. *)
Record World : Type := mkWorld {
  fs : list (string * FileInfo);
  persisted : option ModelInfo;
  clock : Z
}.

Definition regular : FileInfo := {| IsDir := false; IsRegular := true |}.
Definition directory : FileInfo := {| IsDir := true; IsRegular := false |}.

Fixpoint lookupPath (p : string) (l : list (string * FileInfo)) : option FileInfo :=
  match l with
  | [] => None
  | (q, i) :: l' => if String.eqb p q then Some i else lookupPath p l'
  end.

(** [dir/name] with no further separator in [name]. *)
Definition childOf (dir path : string) : bool :=
  let d := dir +:+ "/" in
  String.prefix d path
  && negb (ContainsAny
             (substring (String.length d) (String.length path) path) "/").

Definition glob (pattern : string) (w : World) : string + list string :=
  if HasSuffix pattern "/*" then
    let dir := substring 0 (String.length pattern - 2) pattern in
    inr (map fst (filter (fun e => childOf dir (fst e)) (fs w)))
  else
    match lookupPath pattern (fs w) with
    | Some _ => inr [pattern]
    | None => inr []
    end.

Definition addPath (p : string) (i : FileInfo) (w : World) : World :=
  {| fs := match lookupPath p (fs w) with
           | Some _ => fs w
           | None => fs w ++ [(p, i)]
           end;
     persisted := persisted w; clock := clock w |}.

Definition emptyModel : ModelInfo :=
  {| Entities := []; MRand := None; MinimumParserVersion := 4; ModelVersion := 4 |}.

Definition hasEntity (n : string) (m : ModelInfo) : bool :=
  existsb (fun e => String.eqb (EName e) n) (Entities m).

(** Entities of the parsed file that the registry knows get their meta
    information; the others join the registry. *)
Definition merge (current stored : ModelInfo) : ModelInfo * option string :=
  (fold_left
     (fun m e =>
        if hasEntity (EName e) m then
          setEntities m
            (map (fun x => if String.eqb (EName x) (EName e)
                           then setEntityMeta x (Some (MetaInfo (EName e)))
                           else x) (Entities m))
        else
          setEntities m
            (Entities m ++ [setEntityMeta e (Some (MetaInfo (EName e)))]))
     (Entities current) stored, None).

Definition env : Env World := {|
  MkdirAll := fun p w => (addPath p directory w, None);
  Stat := fun p w =>
    match lookupPath p (fs w) with
    | Some i => inr i
    | None => inl ("stat " +:+ p +:+ ": no such file or directory")
    end;
  Glob := glob;
  Remove := fun p w =>
    ({| fs := filter (fun e => negb (String.eqb (fst e) p)) (fs w);
        persisted := persisted w; clock := clock w |}, None);
  Dir := fun p => ".";
  Join := fun d f => d +:+ "/" +:+ f;
  GOOS := "linux";
  Now := clock;
  model_ModelVersion := 5;
  LoadOrCreateModel := fun f w =>
    (w, inr (match persisted w with Some m => m | None => emptyModel end));
  Close := fun m w => w;
  Validate := fun m =>
    if (ModelVersion m <? 4) || (5 <? ModelVersion m)
    then Some "unsupported model version" else None;
  Finalize := fun m => (m, None);
  RemoveEntity := fun e m =>
    (setEntities m
       (filter (fun x => negb (String.eqb (EName x) (EName e))) (Entities m)),
     None);
  Write := fun m w =>
    ({| fs := fs w; persisted := Some m; clock := clock w |}, None);
  mergeBindingWithModelInfo := merge
|}.

(** The same, with a [Finalize] that rejects every registry. *)
Definition envRejecting : Env World :=
  {| MkdirAll := @MkdirAll _ env; Stat := @Stat _ env; Glob := @Glob _ env;
     Remove := @Remove _ env; Dir := @Dir _ env; Join := @Join _ env;
     GOOS := @GOOS _ env; Now := @Now _ env;
     model_ModelVersion := @model_ModelVersion _ env;
     LoadOrCreateModel := @LoadOrCreateModel _ env; Close := @Close _ env;
     Validate := @Validate _ env;
     Finalize := fun m => (m, Some "entity has no id property");
     RemoveEntity := @RemoveEntity _ env; Write := @Write _ env;
     mergeBindingWithModelInfo := @mergeBindingWithModelInfo _ env |}.

Definition entityNamed (n : string) : Entity :=
  {| EName := n; EId := "0:0"; Properties := [];
     CurrentlyPresent := false; Meta := None |}.

(** A generator for [.fbs] files: a file declares one entity, named after
    the file; the binding of [f] is [f.obx.h]. *)
Definition gen : CodeGenerator World := {|
  IsGeneratedFile := fun p => HasSuffix p ".obx.h";
  IsSourceFile := fun p => HasSuffix p ".fbs";
  ParseSource := fun p w =>
    inr {| Entities := [entityNamed p]; MRand := None;
           MinimumParserVersion := 0; ModelVersion := 0 |};
  WriteBindingFiles := fun p o m w => (addPath (p +:+ ".obx.h") regular w, None);
  WriteModelBindingFile := fun o m w => (addPath "objectbox-model.h" regular w, None)
|}.

Definition options (inPath : string) (r : option Rand) : Options :=
  {| InPath := inPath; OutPath := ""; OutHeadersPath := "";
     ModelInfoFile_ := ""; ORand := r |}.

(** A project directory with two schema files and a text file. *)
Definition project : World :=
  {| fs := [ ("src", directory); ("src/a.fbs", regular);
             ("src/b.fbs", regular); ("notes.txt", regular) ];
     persisted := None; clock := 42 |}.

(** The registry of both schema files, as a run on [src] wrote it. *)
Definition bothKnown : ModelInfo :=
  {| Entities := [ entityNamed "src/a.fbs"; entityNamed "src/b.fbs" ];
     MRand := None; MinimumParserVersion := 5; ModelVersion := 5 |}.

(** The project after [src/b.fbs] was deleted. *)
Definition projectWithoutB : World :=
  {| fs := [ ("src", directory); ("src/a.fbs", regular) ];
     persisted := Some bothKnown; clock := 43 |}.

Definition seeded : Rand := {| seed := 2024; drawn := 0%N |}.

End Samples.

(* ===================================================================== *)
(** * Properties *)
(* ===================================================================== *)

(** ** Identifiers: parsing and formatting *)

Section StringFacts.

Lemma append_nil (b : string) : EmptyString +:+ b = b.
Proof. reflexivity. Qed.

Lemma append_cons (x : ascii) (a b : string) : String x a +:+ b = String x (a +:+ b).
Proof. reflexivity. Qed.

Lemma append_assoc (a b c : string) : (a +:+ b) +:+ c = a +:+ (b +:+ c).
Proof.
  induction a as [|x a IH]; [reflexivity |].
  rewrite !append_cons. now rewrite IH.
Qed.

Lemma append_empty_r (a : string) : a +:+ "" = a.
Proof.
  induction a as [|x a IH]; [reflexivity |].
  rewrite append_cons. now rewrite IH.
Qed.

Lemma string_snoc_cases (s : string) :
  s = EmptyString \/ exists s' c, s = s' +:+ String c EmptyString.
Proof.
  induction s as [|x s IH]; [now left | right].
  destruct IH as [-> | (s' & c & ->)].
  - now exists EmptyString, x.
  - now exists (String x s'), c.
Qed.

Lemma length_append (a b : string) :
  String.length (a +:+ b) = (String.length a + String.length b)%nat.
Proof. induction a as [|x a IH]; simpl; [reflexivity | f_equal; exact IH]. Qed.

Lemma string_rev_ind (P : string -> Prop) :
  P EmptyString ->
  (forall s c, P s -> P (s +:+ String c EmptyString)) ->
  forall s, P s.
Proof.
  intros H0 Hs s.
  remember (String.length s) as n eqn:Hn.
  revert s Hn. induction n as [|n IH]; intros s Hn.
  - destruct s; [exact H0 | discriminate].
  - destruct (string_snoc_cases s) as [-> | (s' & c & ->)]; [discriminate |].
    apply Hs, IH. rewrite length_append in Hn. simpl in Hn. lia.
Qed.

End StringFacts.

Section Digits.

Lemma is_digit_range c : is_digit c = true -> 0 <= digit_val c <= 9.
Proof.
  unfold is_digit, digit_val. rewrite andb_true_iff, !Z.leb_le. lia.
Qed.

Lemma digit_char_val c : is_digit c = true -> digit_char (digit_val c) = c.
Proof.
  intros Hc. apply is_digit_range in Hc. unfold digit_char, digit_val, byte_of in *.
  replace (48 + (Z.of_N (N_of_ascii c) - 48)) with (Z.of_N (N_of_ascii c)) by lia.
  rewrite N2Z.id. apply ascii_N_embedding.
Qed.

Lemma digit_val_char d :
  0 <= d <= 9 -> is_digit (digit_char d) = true /\ digit_val (digit_char d) = d.
Proof.
  intros Hd.
  assert (d = 0 \/ d = 1 \/ d = 2 \/ d = 3 \/ d = 4 \/ d = 5 \/ d = 6 \/ d = 7
          \/ d = 8 \/ d = 9) as Hc by lia.
  repeat (destruct Hc as [-> | Hc]; [split; reflexivity |]).
  subst d. split; reflexivity.
Qed.

Lemma digit_char_zero d : 0 <= d <= 9 -> Ascii.eqb (digit_char d) "0"%char = true -> d = 0.
Proof.
  intros Hd He. apply Ascii.eqb_eq in He.
  destruct (digit_val_char d Hd) as [_ Hv]. rewrite He in Hv. now rewrite <- Hv.
Qed.

Lemma digit_not_colon c : is_digit c = true -> Ascii.eqb c colon = false.
Proof.
  intros Hc. apply Ascii.eqb_neq. intros ->. discriminate Hc.
Qed.

Lemma all_digits_app a b : all_digits (a +:+ b) = all_digits a && all_digits b.
Proof.
  induction a as [|x a IH]; [reflexivity |].
  rewrite append_cons. simpl. now rewrite IH, andb_assoc.
Qed.

Lemma digitsVal_app n a b : digitsVal n (a +:+ b) = digitsVal (digitsVal n a) b.
Proof.
  revert n. induction a as [|x a IH]; intros n; [reflexivity |].
  rewrite append_cons. simpl. apply IH.
Qed.

Lemma digitsVal_mono n s : all_digits s = true -> 0 <= n -> n <= digitsVal n s.
Proof.
  revert n. induction s as [|c s IH]; intros n Hs Hn; simpl in *; [lia |].
  apply andb_true_iff in Hs as [Hc Hs]. apply is_digit_range in Hc.
  specialize (IH (n * 10 + digit_val c) Hs). lia.
Qed.

Lemma digitsVal_pos s :
  all_digits s = true -> s <> EmptyString -> leadingZero s = false ->
  1 <= digitsVal 0 s.
Proof.
  destruct s as [|c s]; [congruence |]. simpl. intros Hs _ Hz.
  apply andb_true_iff in Hs as [Hc Hs].
  assert (digit_val c <> 0) as Hne.
  { intros H0. rewrite <- (digit_char_val c Hc), H0 in Hz. discriminate Hz. }
  apply is_digit_range in Hc.
  replace (0 * 10 + digit_val c) with (digit_val c) by lia.
  pose proof (digitsVal_mono (digit_val c) s Hs). lia.
Qed.

(** The digit loop against the value of the digit string. *)
Lemma parseLoop_spec maxVal s : forall n,
  0 <= n <= maxVal -> maxVal <= maxUint64 -> all_digits s = true ->
  parseLoop (maxUint64 / 10 + 1) maxVal n s =
    if digitsVal n s <=? maxVal then inr (digitsVal n s) else inl ErrRange.
Proof.
  induction s as [|c s IH]; intros n Hn Hmax Hs; simpl in *.
  - destruct (Z.leb_spec n maxVal); [reflexivity | lia].
  - apply andb_true_iff in Hs as [Hc Hs]. rewrite Hc.
    pose proof (is_digit_range c Hc) as Hd.
    pose proof (digitsVal_mono (n * 10 + digit_val c) s Hs) as Hmono.
    unfold maxUint64, two64 in *.
    change (2 ^ 64) with 18446744073709551616 in *.
    change ((18446744073709551616 - 1) / 10 + 1) with 1844674407370955162 in *.
    destruct (Z.leb_spec 1844674407370955162 n) as [Hcut | Hcut].
    + destruct (Z.leb_spec (digitsVal (n * 10 + digit_val c) s) maxVal); [lia | reflexivity].
    + rewrite (Z.mod_small (n * 10)) by lia.
      destruct (Z.ltb_spec ((n * 10 + digit_val c) mod 18446744073709551616) (n * 10)) as [Hw | Hw]; simpl.
      * assert (18446744073709551616 <= n * 10 + digit_val c).
        { destruct (Z_lt_le_dec (n * 10 + digit_val c) 18446744073709551616) as [Hlt|]; [|lia].
          rewrite Z.mod_small in Hw by lia. lia. }
        destruct (Z.leb_spec (digitsVal (n * 10 + digit_val c) s) maxVal); [lia | reflexivity].
      * assert (n * 10 + digit_val c < 18446744073709551616) as Hlt.
        { destruct (Z_lt_le_dec (n * 10 + digit_val c) 18446744073709551616) as [|Hge]; [lia|].
          exfalso.
          assert ((n * 10 + digit_val c) mod 18446744073709551616
                  = n * 10 + digit_val c - 18446744073709551616) as E.
          { symmetry. apply Z.mod_unique with (q := 1); lia. }
          lia. }
        rewrite Z.mod_small in * by lia.
        destruct (Z.ltb_spec maxVal (n * 10 + digit_val c)) as [Hgt | Hle].
        -- destruct (Z.leb_spec (digitsVal (n * 10 + digit_val c) s) maxVal); [lia | reflexivity].
        -- apply IH; [lia | lia | exact Hs].
Qed.

Lemma parseLoop_digits cutoff maxVal s : forall n v,
  parseLoop cutoff maxVal n s = inr v -> all_digits s = true.
Proof.
  induction s as [|c s IH]; intros n v Hp; simpl in *; [reflexivity |].
  destruct (is_digit c); [| discriminate]. simpl.
  destruct (cutoff <=? n); [discriminate |].
  destruct (_ || _); [discriminate |]. eapply IH, Hp.
Qed.

Lemma ParseUint_inr s bits v :
  bits = 32 \/ bits = 64 ->
  ParseUint s bits = inr v <->
  s <> EmptyString /\ all_digits s = true /\ digitsVal 0 s = v /\ v <= maxOf bits.
Proof.
  intros Hb. unfold ParseUint.
  destruct (String.eqb_spec s EmptyString) as [-> | Hne].
  { split; [discriminate | intros [? _]; congruence]. }
  assert ((if bits =? 0 then 64 else bits) = bits) as -> by (destruct Hb; subst; reflexivity).
  assert ((bits <? 0) || (64 <? bits) = false) as -> by (destruct Hb; subst; reflexivity).
  assert ((Z.shiftl 1 bits mod two64 - 1) mod two64 = maxOf bits) as ->
    by (destruct Hb; subst; reflexivity).
  assert (0 <= maxOf bits <= maxUint64) as Hm
    by (destruct Hb; subst; unfold maxOf, maxUint64, two64; lia).
  split.
  - intros Hp. pose proof (parseLoop_digits _ _ _ _ _ Hp) as Hs.
    rewrite parseLoop_spec in Hp by (try lia; assumption).
    destruct (Z.leb_spec (digitsVal 0 s) (maxOf bits)); [| discriminate].
    inversion Hp. subst. auto.
  - intros (_ & Hs & Hv & Hle). rewrite parseLoop_spec by (try lia; assumption).
    rewrite Hv. destruct (Z.leb_spec v (maxOf bits)); [reflexivity | lia].
Qed.

End Digits.

Section Format.

Lemma leadingZero_app a b :
  a <> EmptyString -> leadingZero (a +:+ b) = leadingZero a.
Proof. destruct a; [congruence | reflexivity]. Qed.

Lemma append_not_empty a c : a +:+ String c EmptyString <> EmptyString.
Proof. destruct a; discriminate. Qed.

Lemma pow10_succ (f : nat) : 10 ^ Z.of_nat (S f) = 10 * 10 ^ Z.of_nat f.
Proof. rewrite Nat2Z.inj_succ, Z.pow_succ_r by lia. reflexivity. Qed.

Lemma formatBits_spec fuel : forall u acc,
  0 <= u < 10 ^ Z.of_nat fuel -> fuel <> O ->
  exists ds, formatBits fuel u acc = ds +:+ acc /\ all_digits ds = true
             /\ digitsVal 0 ds = u /\ ds <> EmptyString
             /\ (u <> 0 -> leadingZero ds = false).
Proof.
  induction fuel as [|f IH]; intros u acc Hu Hf; [congruence |].
  simpl. destruct (Z.ltb_spec u 10) as [Hlt | Hge].
  - exists (String (digit_char u) EmptyString).
    destruct (digit_val_char u) as [Hd Hv]; [lia |].
    repeat split.
    + simpl. now rewrite Hd.
    + simpl. rewrite Hv. lia.
    + discriminate.
    + intros Hne. simpl. destruct (Ascii.eqb (digit_char u) "0") eqn:E; [| reflexivity].
      apply digit_char_zero in E; [congruence | lia].
  - rewrite pow10_succ in Hu.
    assert (f <> O) as Hf' by (intros ->; simpl in Hu; lia).
    assert (0 <= u mod 10 < 10) as Hm by (apply Z.mod_pos_bound; lia).
    assert (u = 10 * (u / 10) + u mod 10) as Hdiv by (apply Z.div_mod; lia).
    destruct (IH (u / 10) (String (digit_char (u mod 10)) acc)) as (ds & E & Hd & Hv & Hne & Hz);
      [lia | exact Hf' |].
    destruct (digit_val_char (u mod 10)) as [Hdc Hdv]; [lia |].
    exists (ds +:+ String (digit_char (u mod 10)) EmptyString).
    repeat split.
    + rewrite E, append_assoc. reflexivity.
    + rewrite all_digits_app, Hd. simpl. now rewrite Hdc.
    + rewrite digitsVal_app, Hv. simpl. rewrite Hdv. lia.
    + apply append_not_empty.
    + intros _. rewrite leadingZero_app by exact Hne. apply Hz. lia.
Qed.

Lemma formatBits_canonical : forall s,
  all_digits s = true -> s <> EmptyString -> leadingZero s = false ->
  forall fuel acc, digitsVal 0 s < 10 ^ Z.of_nat fuel ->
  formatBits fuel (digitsVal 0 s) acc = s +:+ acc.
Proof.
  induction s as [|s c IH] using string_rev_ind; [congruence |].
  intros Hd _ Hz fuel acc Hlt.
  rewrite all_digits_app in Hd. apply andb_true_iff in Hd as [Hs Hc].
  simpl in Hc. rewrite andb_true_r in Hc.
  pose proof (is_digit_range c Hc) as Hr.
  rewrite digitsVal_app in *. simpl digitsVal at 1. simpl digitsVal in Hlt.
  destruct s as [|x s'] eqn:Es.
  - simpl in *. 
    assert (digit_val c <> 0) as Hne.
    { intros H0. rewrite <- (digit_char_val c Hc), H0 in Hz. discriminate Hz. }
    replace (0 * 10 + digit_val c) with (digit_val c) in * by lia.
    destruct fuel as [|f]; [simpl in Hlt; lia |].
    simpl. destruct (Z.ltb_spec (digit_val c) 10); [| lia].
    now rewrite digit_char_val.
  - rewrite <- Es in *. 
    assert (s <> EmptyString) as Hne by (subst; discriminate).
    rewrite leadingZero_app in Hz by exact Hne.
    pose proof (digitsVal_pos s Hs Hne Hz) as Hpos.
    set (v := digitsVal 0 s) in *.
    destruct fuel as [|f]; [simpl in Hlt; lia |].
    rewrite pow10_succ in Hlt.
    simpl formatBits. destruct (Z.ltb_spec (v * 10 + digit_val c) 10); [lia |].
    replace ((v * 10 + digit_val c) / 10) with v
      by (apply Z.div_unique with (r := digit_val c); lia).
    replace ((v * 10 + digit_val c) mod 10) with (digit_val c)
      by (apply Z.mod_unique with (q := v); lia).
    rewrite digit_char_val by exact Hc.
    unfold v. rewrite IH; [now rewrite append_assoc | exact Hs | exact Hne | exact Hz | fold v; lia].
Qed.

End Format.

Section SplitFacts.

Lemma hasColon_cons c s : hasColon (String c s) = Ascii.eqb c colon || hasColon s.
Proof. unfold hasColon. simpl. now rewrite orb_false_r. Qed.

Lemma Split_not_nil s : Split s colon <> [].
Proof.
  destruct s as [|c s]; simpl; [discriminate |].
  destruct (Ascii.eqb c colon); [discriminate |].
  destruct (Split s colon); discriminate.
Qed.

Lemma Split_no_colon s : hasColon s = false -> Split s colon = [s].
Proof.
  induction s as [|c s IH]; [reflexivity |].
  rewrite hasColon_cons. intros Hc. apply orb_false_iff in Hc as [Hc Hs].
  simpl. rewrite Hc, (IH Hs). reflexivity.
Qed.

Lemma Split_app a b :
  hasColon a = false ->
  Split (a +:+ String colon b) colon = a :: Split b colon.
Proof.
  induction a as [|c a IH]; intros Ha.
  - reflexivity.
  - rewrite hasColon_cons in Ha. apply orb_false_iff in Ha as [Hc Ha].
    rewrite append_cons. simpl. rewrite Hc, (IH Ha). reflexivity.
Qed.

Lemma Split_has_colon s :
  hasColon s = true -> exists a b rest, Split s colon = a :: b :: rest.
Proof.
  induction s as [|c s IH]; [discriminate |].
  rewrite hasColon_cons. simpl. destruct (Ascii.eqb c colon); simpl.
  - intros _. destruct (Split s colon) as [|b rest] eqn:E; [now apply Split_not_nil in E |].
    now exists EmptyString, b, rest.
  - intros Hs. destruct (IH Hs) as (a & b & rest & ->). now exists (String c a), b, rest.
Qed.

Lemma joinColon_cons x l :
  l <> [] -> joinColon (x :: l) = x +:+ String colon (joinColon l).
Proof. destruct l; [congruence | reflexivity]. Qed.

Lemma Split_join s : joinColon (Split s colon) = s.
Proof.
  induction s as [|c s IH]; [reflexivity |].
  pose proof (Split_not_nil s) as Hnn.
  simpl. destruct (Ascii.eqb_spec c colon) as [-> | Hne].
  - rewrite joinColon_cons by exact Hnn. rewrite IH. reflexivity.
  - destruct (Split s colon) as [|a rest] eqn:E; [congruence |].
    destruct rest as [|b rest].
    + simpl in *. now rewrite IH.
    + rewrite joinColon_cons in * by discriminate.
      rewrite append_cons. now rewrite IH.
Qed.

Lemma Split_component_no_colon s : forall c, In c (Split s colon) -> hasColon c = false.
Proof.
  induction s as [|x s IH]; intros c Hin.
  - destruct Hin as [<- | []]. reflexivity.
  - simpl in Hin. destruct (Ascii.eqb x colon) eqn:Ex.
    + destruct Hin as [<- | Hin]; [reflexivity | now apply IH].
    + destruct (Split s colon) as [|a rest] eqn:E; [now apply Split_not_nil in E |].
      destruct Hin as [<- | Hin].
      * rewrite hasColon_cons, Ex. simpl. apply IH. now left.
      * apply IH. now right.
Qed.

Lemma all_digits_no_colon s : all_digits s = true -> hasColon s = false.
Proof.
  induction s as [|c s IH]; [reflexivity |].
  simpl. intros H. apply andb_true_iff in H as [Hc Hs].
  rewrite hasColon_cons, (digit_not_colon c Hc), (IH Hs). reflexivity.
Qed.

End SplitFacts.

Section IdUidFacts.

Lemma length_zero_iff (s : string) : (String.length s =? 0)%nat = true <-> s = EmptyString.
Proof. destruct s; simpl; split; congruence. Qed.

Lemma length_nonzero (s : string) : s <> EmptyString -> (String.length s =? 0)%nat = false.
Proof. destruct s; [congruence | reflexivity]. Qed.

Lemma ParseUint_nonneg s bits v :
  bits = 32 \/ bits = 64 -> ParseUint s bits = inr v -> 0 <= v <= maxOf bits.
Proof.
  intros Hb Hp. apply (ParseUint_inr s bits v Hb) in Hp as (_ & Hd & Hv & Hle).
  pose proof (digitsVal_mono 0 s Hd). lia.
Qed.

(** [GetId] reads component 0, which every split has. *)
Lemma GetId_no_panic s : GetId s <> Panic.
Proof.
  unfold GetId, getComponent.
  destruct (String.length s =? 0)%nat; [simpl; discriminate |].
  destruct (Split s colon) as [|a rest] eqn:E; [now apply Split_not_nil in E |].
  simpl. destruct (ParseUint a 32) as [e|z]; [discriminate |].
  destruct (z =? 0); simpl; discriminate.
Qed.

Lemma GetIdAllowZero_no_panic s : GetIdAllowZero s <> Panic.
Proof.
  unfold GetIdAllowZero, getComponent.
  destruct (String.length s =? 0)%nat; [simpl; discriminate |].
  destruct (Split s colon) as [|a rest] eqn:E; [now apply Split_not_nil in E |].
  simpl. destruct (ParseUint a 32) as [e|z]; [discriminate |].
  destruct (z =? 0); simpl; discriminate.
Qed.

Lemma getComponent1_panic s bits az :
  getComponent s 1 bits az = Panic <-> s <> EmptyString /\ ContainsAny s ":" = false.
Proof.
  unfold getComponent. destruct s as [|c s'] eqn:Es.
  - simpl. split; [discriminate | intros [? _]; congruence].
  - rewrite <- Es. rewrite length_nonzero by (subst; discriminate).
    fold (hasColon s). destruct (hasColon s) eqn:Hc.
    + destruct (Split_has_colon s Hc) as (a & b & rest & ->). simpl.
      split; [| intros [_ ?]; discriminate].
      destruct (ParseUint b bits) as [e|z]; [discriminate |].
      destruct ((z =? 0) && negb az); discriminate.
    + rewrite (Split_no_colon s Hc). simpl. split; [intros _ | reflexivity].
      split; [subst; discriminate | reflexivity].
Qed.

Lemma Validate_panic_iff s : Validate s = Panic <-> GetUid s = Panic.
Proof.
  unfold Validate. destruct (GetUid s); split; try discriminate; try reflexivity.
  pose proof (GetId_no_panic s). destruct (GetId s); [| discriminate | congruence].
  destruct (negb _); discriminate.
Qed.

(** A component read without error is a digit string with that value. *)
Lemma getComponent_Ok s n bits az v :
  bits = 32 \/ bits = 64 ->
  getComponent s n bits az = Ok v ->
  exists c, nth_error (Split s colon) n = Some c /\ c <> EmptyString
            /\ all_digits c = true /\ digitsVal 0 c = v /\ 0 <= v <= maxOf bits
            /\ (az = false -> v <> 0).
Proof.
  intros Hb. unfold getComponent.
  destruct (String.length s =? 0)%nat.
  { destruct (componentNamesErr n); discriminate. }
  destruct (nth_error (Split s colon) n) as [c|]; [| discriminate].
  destruct (ParseUint c bits) as [e | w] eqn:Hp; [discriminate |].
  pose proof (ParseUint_nonneg c bits w Hb Hp) as Hr.
  apply (ParseUint_inr c bits w Hb) in Hp as (Hne & Hd & Hv & Hle).
  destruct (Z.eqb_spec w 0) as [-> | Hw]; destruct az; simpl;
    try (destruct (componentNamesErr n); discriminate);
    intros [= <-]; exists c; repeat split; try assumption; try lia; try congruence.
Qed.

Lemma getComponent_of_digits s n bits az c name :
  bits = 32 \/ bits = 64 ->
  s <> EmptyString -> nth_error (Split s colon) n = Some c ->
  componentNamesErr n = Some name ->
  c <> EmptyString -> all_digits c = true -> digitsVal 0 c <= maxOf bits ->
  getComponent s n bits az =
    if (digitsVal 0 c =? 0) && negb az then Err (ErrZero name) else Ok (digitsVal 0 c).
Proof.
  intros Hb Hs Hn Hname Hc Hd Hle. unfold getComponent.
  rewrite length_nonzero by exact Hs. rewrite Hn, Hname.
  assert (ParseUint c bits = inr (digitsVal 0 c)) as -> by (apply ParseUint_inr; auto).
  reflexivity.
Qed.

Lemma mod_two32_small v : 0 <= v <= maxOf 32 -> v mod two32 = v.
Proof. unfold maxOf, two32. intros. apply Z.mod_small. lia. Qed.

Lemma GetId_Ok s id :
  GetId s = Ok id ->
  exists c, nth_error (Split s colon) 0 = Some c /\ c <> EmptyString
            /\ all_digits c = true /\ digitsVal 0 c = id /\ 1 <= id <= maxOf 32.
Proof.
  unfold GetId. destruct (getComponent s 0 32 false) as [v| |] eqn:E; try discriminate.
  intros [= <-]. apply getComponent_Ok in E as (c & Hn & Hc & Hd & Hv & Hr & Hz); [| now left].
  specialize (Hz eq_refl). rewrite mod_two32_small by exact Hr.
  exists c. repeat split; try assumption; lia.
Qed.

Lemma GetUid_Ok s uid :
  GetUid s = Ok uid ->
  exists c, nth_error (Split s colon) 1 = Some c /\ c <> EmptyString
            /\ all_digits c = true /\ digitsVal 0 c = uid /\ 1 <= uid <= maxOf 64.
Proof.
  unfold GetUid. intros E.
  apply getComponent_Ok in E as (c & Hn & Hc & Hd & Hv & Hr & Hz); [| now right].
  specialize (Hz eq_refl). exists c. repeat split; try assumption; lia.
Qed.

(** Shape of a created identifier. *)
Lemma CreateIdUid_shape id uid :
  0 <= id < 2 ^ 32 -> 0 <= uid < 2 ^ 64 ->
  exists a b, CreateIdUid id uid = a +:+ String colon b
    /\ all_digits a = true /\ all_digits b = true
    /\ a <> EmptyString /\ b <> EmptyString
    /\ digitsVal 0 a = id /\ digitsVal 0 b = uid
    /\ (id <> 0 -> leadingZero a = false) /\ (uid <> 0 -> leadingZero b = false).
Proof.
  intros Hid Huid. unfold CreateIdUid, FormatInt, FormatUint.
  destruct (Z.ltb_spec id 0); [lia |].
  destruct (formatBits_spec 20 id EmptyString) as (a & Ea & Ha & Va & Na & Za);
    [simpl; lia | discriminate |].
  destruct (formatBits_spec 20 uid EmptyString) as (b & Eb & Hb & Vb & Nb & Zb);
    [simpl; lia | discriminate |].
  rewrite Ea, Eb, !append_empty_r. exists a, b. repeat split; assumption.
Qed.

Lemma Split_two a b :
  all_digits a = true -> all_digits b = true ->
  Split (a +:+ String colon b) colon = [a; b].
Proof.
  intros Ha Hb. rewrite Split_app by now apply all_digits_no_colon.
  now rewrite Split_no_colon by now apply all_digits_no_colon.
Qed.

Lemma CreateIdUid_parse id uid :
  1 <= id < 2 ^ 32 -> 1 <= uid < 2 ^ 64 ->
  GetId (CreateIdUid id uid) = Ok id /\ GetUid (CreateIdUid id uid) = Ok uid
  /\ Validate (CreateIdUid id uid) = Ok tt.
Proof.
  intros Hid Huid.
  destruct (CreateIdUid_shape id uid) as (a & b & E & Ha & Hb & Na & Nb & Va & Vb & _);
    [lia | lia |].
  assert (a +:+ String colon b <> EmptyString) as Hne by (destruct a; discriminate).
  assert (GetId (CreateIdUid id uid) = Ok id) as HI.
  { unfold GetId. rewrite E.
    rewrite (getComponent_of_digits _ 0 32 false a "id"); auto;
      [| now rewrite Split_two | rewrite Va; unfold maxOf; lia].
    rewrite Va. destruct (Z.eqb_spec id 0); [lia |]. simpl.
    rewrite mod_two32_small by (unfold maxOf; lia). reflexivity. }
  assert (GetUid (CreateIdUid id uid) = Ok uid) as HU.
  { unfold GetUid. rewrite E.
    rewrite (getComponent_of_digits _ 1 64 false b "uid"); auto;
      [| now rewrite Split_two | rewrite Vb; unfold maxOf; lia].
    rewrite Vb. destruct (Z.eqb_spec uid 0); [lia |]. reflexivity. }
  repeat split; try assumption.
  unfold Validate. rewrite HU, HI, E, Split_two by assumption. reflexivity.
Qed.

(** Shape of an identifier that [Validate] accepts. *)
Lemma Validate_shape s :
  Validate s = Ok tt ->
  exists a b id uid, s = a +:+ String colon b /\ Split s colon = [a; b]
    /\ all_digits a = true /\ all_digits b = true
    /\ a <> EmptyString /\ b <> EmptyString
    /\ digitsVal 0 a = id /\ digitsVal 0 b = uid
    /\ 1 <= id <= maxOf 32 /\ 1 <= uid <= maxOf 64
    /\ GetId s = Ok id /\ GetUid s = Ok uid.
Proof.
  unfold Validate. destruct (GetUid s) as [uid| |] eqn:EU; try discriminate.
  destruct (GetId s) as [id| |] eqn:EI; try discriminate.
  destruct (length (Split s colon) =? 2)%nat eqn:El; [| discriminate]. intros _.
  apply Nat.eqb_eq in El.
  destruct (Split s colon) as [|a [|b [|]]] eqn:ES; try discriminate.
  apply GetId_Ok in EI as (a' & Hna & Na & Ha & Va & Ra).
  apply GetUid_Ok in EU as (b' & Hnb & Nb & Hb & Vb & Rb).
  rewrite ES in Hna, Hnb. simpl in Hna, Hnb.
  injection Hna as <-. injection Hnb as <-.
  exists a, b, id, uid. 
  assert (s = a +:+ String colon b) as Hs.
  { rewrite <- (Split_join s), ES. reflexivity. }
  repeat split; try assumption; try lia.
Qed.

End IdUidFacts.

(** C1. Parsing an identifier is meant to return an error value for every
    malformed string and never to crash. The code does not do that: [GetId]
    never panics, but [GetUid] and [Validate] panic with an index out of
    range exactly on the non-empty strings that contain no [':'] separator,
    such as ["12"], because [getComponent] takes element 1 of the split
    without looking at its length. *)
Theorem GetUid_panics_without_separator :
  GetUid "12" = Panic /\ Validate "12" = Panic /\
  forall s : IdUid,
    GetId s <> Panic
    /\ (GetUid s = Panic <-> s <> EmptyString /\ ContainsAny s ":" = false)
    /\ (Validate s = Panic <-> s <> EmptyString /\ ContainsAny s ":" = false).
Proof.
  split; [reflexivity |]. split; [reflexivity |].
  intros s. split; [apply GetId_no_panic |]. split.
  - apply getComponent1_panic.
  - rewrite Validate_panic_iff. apply getComponent1_panic.
Qed.

(** C4, as stated, fails: the relaxed accessor of iduid.go relaxes the uid,
    and returns a zero uid without error. *)
Lemma GetUidAllowZero_returns_zero_uid :
  GetUidAllowZero "7:0" = Ok 0 /\ GetUid "7:0" = Err (ErrZero "uid").
Proof. split; reflexivity. Qed.

(** C4, amended. The strict accessors reject a zero component: [GetId] never
    returns the id 0, and [GetUid], [Get] and [Validate] never accept the uid
    0. The relaxed accessor of iduid.go, [GetUidAllowZero], relaxes the uid
    position: it returns what [GetUid] returns and, where [GetUid] fails only
    because the uid is zero, it returns 0 without error. *)
Theorem zero_components :
  forall s : IdUid,
    GetId s <> Ok 0
    /\ GetUid s <> Ok 0
    /\ (forall id uid, Get s = Ok (id, uid) -> id <> 0 /\ uid <> 0)
    /\ (Validate s = Ok tt -> exists id uid, Get s = Ok (id, uid) /\ id <> 0 /\ uid <> 0)
    /\ (forall uid, GetUidAllowZero s = Ok uid <->
          GetUid s = Ok uid \/ (uid = 0 /\ GetUid s = Err (ErrZero "uid"))).
Proof.
  intros s.
  assert (GetId s <> Ok 0) as HI.
  { intros E. apply GetId_Ok in E as (c & _ & _ & _ & _ & Hr). lia. }
  assert (GetUid s <> Ok 0) as HU.
  { intros E. apply GetUid_Ok in E as (c & _ & _ & _ & _ & Hr). lia. }
  assert (forall id uid, Get s = Ok (id, uid) -> id <> 0 /\ uid <> 0) as HG.
  { intros id uid Hg. unfold Get in Hg.
    destruct (GetId s) as [i| |]; try discriminate.
    destruct (GetUid s) as [u| |]; try discriminate.
    injection Hg as <- <-.
    split; intros ->; [now apply HI | now apply HU]. }
  split; [exact HI |]. split; [exact HU |]. split; [exact HG |].
  split; [| intros uid; split].
  - intros Hv. apply Validate_shape in Hv
      as (a & b & id & uid & _ & _ & _ & _ & _ & _ & _ & _ & Ri & Ru & EI & EU).
    exists id, uid. unfold Get. rewrite EI, EU. repeat split; lia.
  - unfold GetUidAllowZero, GetUid, getComponent.
    destruct (String.length s =? 0)%nat; [discriminate |].
    destruct (nth_error (Split s colon) 1) as [c|]; [| discriminate].
    destruct (ParseUint c 64) as [e|w]; [discriminate |].
    destruct (Z.eqb_spec w 0) as [-> | Hw]; simpl.
    + intros [= <-]. right. split; reflexivity.
    + intros [= <-]. now left.
  - unfold GetUidAllowZero, GetUid, getComponent.
    destruct (String.length s =? 0)%nat; [intros [? | [_ ?]]; discriminate |].
    destruct (nth_error (Split s colon) 1) as [c|]; [| intros [? | [_ ?]]; discriminate].
    destruct (ParseUint c 64) as [e|w]; [intros [? | [_ ?]]; discriminate |].
    destruct (Z.eqb_spec w 0) as [-> | Hw]; simpl.
    + intros [? | [-> _]]; [discriminate | reflexivity].
    + intros [? | [_ ?]]; [assumption | discriminate].
Qed.

(** C5, as stated, fails: [Validate] accepts leading zeros, which
    [CreateIdUid] does not write back. *)
Lemma leading_zero_breaks_roundtrip :
  Validate "01:2" = Ok tt /\ GetId "01:2" = Ok 1 /\ GetUid "01:2" = Ok 2
  /\ CreateIdUid 1 2 <> "01:2".
Proof. repeat split; try reflexivity. discriminate. Qed.

(** C5, amended. For every id in 1..2^32-1 and uid in 1..2^64-1, parsing
    [CreateIdUid id uid] with [GetId] and [GetUid] returns [id] and [uid], and
    [Validate] accepts it. For every string [s] that [Validate] accepts, with
    [id] and [uid] its components, [CreateIdUid id uid] parses to the same
    [id] and [uid], and it equals [s] character for character exactly when
    no component of [s] has a leading zero. *)
Theorem CreateIdUid_roundtrip :
  (forall id uid, 1 <= id < 2 ^ 32 -> 1 <= uid < 2 ^ 64 ->
     GetId (CreateIdUid id uid) = Ok id /\ GetUid (CreateIdUid id uid) = Ok uid
     /\ Validate (CreateIdUid id uid) = Ok tt)
  /\ (forall s : IdUid, Validate s = Ok tt ->
        exists id uid, GetId s = Ok id /\ GetUid s = Ok uid
          /\ GetId (CreateIdUid id uid) = Ok id
          /\ GetUid (CreateIdUid id uid) = Ok uid
          /\ (CreateIdUid id uid = s <-> canonical s = true)).
Proof.
  split; [apply CreateIdUid_parse |].
  intros s Hv.
  apply Validate_shape in Hv
    as (a & b & id & uid & Hs & HS & Ha & Hb & Na & Nb & Va & Vb & Ri & Ru & EI & EU).
  unfold maxOf in Ri, Ru.
  exists id, uid.
  destruct (CreateIdUid_parse id uid) as (PI & PU & _); [lia | lia |].
  repeat split; try assumption.
  - intros Hc. rewrite <- Hc in HS.
    destruct (CreateIdUid_shape id uid) as (a' & b' & E & Ha' & Hb' & _ & _ & _ & _ & Za & Zb);
      [lia | lia |].
    rewrite E, Split_two in HS by assumption. injection HS as -> ->.
    unfold canonical. rewrite <- Hc, E, Split_two by assumption. simpl.
    rewrite Za, Zb by lia. reflexivity.
  - unfold canonical. rewrite HS. simpl. rewrite andb_true_r, andb_true_iff, !negb_true_iff.
    intros [Za Zb]. unfold CreateIdUid, FormatInt, FormatUint.
    destruct (Z.ltb_spec id 0); [lia |].
    rewrite <- Va, <- Vb.
    rewrite !formatBits_canonical; try assumption;
      [| rewrite Vb; simpl; lia | rewrite Va; simpl; lia].
    rewrite !append_empty_r. now rewrite Hs.
Qed.

Lemma CreateIdUid_roundtrip_witness :
  GetId (CreateIdUid 7 1234) = Ok 7 /\ GetUid (CreateIdUid 7 1234) = Ok 1234
  /\ Validate (CreateIdUid 7 1234) = Ok tt.
Proof. apply (proj1 CreateIdUid_roundtrip 7 1234); lia. Defined.

Example GetId_ex : GetId "12:345" = Ok 12.
Proof. reflexivity. Qed.

Example GetUid_ex : GetUid "12:345" = Ok 345.
Proof. reflexivity. Qed.

Example CreateIdUid_max :
  CreateIdUid 4294967295 18446744073709551615 = "4294967295:18446744073709551615".
Proof. reflexivity. Qed.

Example GetUid_max :
  GetUid "4294967295:18446744073709551615" = Ok 18446744073709551615.
Proof. vm_compute. reflexivity. Qed.

Example GetUid_overflow :
  GetUid "1:18446744073709551616" = Err (ErrCantParse "18446744073709551616" ErrRange).
Proof. vm_compute. reflexivity. Qed.

Example GetId_overflow :
  GetId "4294967296:1" = Err (ErrCantParse "4294967296" ErrRange).
Proof. vm_compute. reflexivity. Qed.

Example GetId_without_separator : GetId "12" = Ok 12.
Proof. reflexivity. Qed.

Example Validate_too_many : Validate "1:2:3" = Err ErrTooManyColons.
Proof. vm_compute. reflexivity. Qed.

Example Validate_empty : Validate "" = Err (ErrUndefined "uid").
Proof. reflexivity. Qed.

(** ** Annotations *)

Import binding AnnotationSpec.

Section AnnotationFacts.
Context `{ModelPkg}.

Lemma at_delete_ne (a : Annotations) k k' :
  k <> k' -> at_ (delete k a) k' = at_ a k'.
Proof. intros Hne. unfold at_. now rewrite lookup_delete_ne. Qed.

Lemma at_delete_eq (a : Annotations) k : at_ (delete k a) k = None.
Proof. unfold at_. now rewrite lookup_delete_eq. Qed.

Lemma at_empty k : at_ ∅ k = None.
Proof. unfold at_. now rewrite lookup_empty. Qed.

Lemma at_singleton_eq k v : at_ {[k := Some v]} k = Some v.
Proof. unfold at_. now rewrite lookup_singleton_eq. Qed.

Lemma at_singleton_ne k k' (v : option Annotation) :
  k <> k' -> at_ {[k := v]} k' = None.
Proof. intros Hne. unfold at_. now rewrite lookup_singleton_ne. Qed.

Lemma PropertyType_eqb_eq t u : PropertyType_eqb t u = true <-> t = u.
Proof. destruct t, u; simpl; split; congruence. Qed.

Lemma PropertyType_eqb_neq t u : PropertyType_eqb t u = false <-> t <> u.
Proof. destruct t, u; simpl; split; congruence. Qed.

(** The steps before the date step leave the type alone. *)
Lemma idStep_Type a field :
  Type_ (property (fst (idStep a field))) = Type_ (property field)
  /\ snd (idStep a field) = Ok tt.
Proof. unfold idStep. destruct (at_ a "id"); split; reflexivity. Qed.

Lemma nameStep_Type a field :
  Type_ (property (fst (nameStep a field))) = Type_ (property field).
Proof.
  unfold nameStep. destruct (at_ a "name") as [n|]; [| reflexivity].
  destruct (String.length (Value n) =? 0)%nat; reflexivity.
Qed.

Lemma nameStep_result a field :
  snd (nameStep a field) = Ok tt \/ snd (nameStep a field) = Err ErrNameEmpty.
Proof.
  unfold nameStep. destruct (at_ a "name") as [n|]; [| now left].
  destruct (String.length (Value n) =? 0)%nat; [now right | now left].
Qed.

End AnnotationFacts.

Section AnnotationSteps.
Context `{ModelPkg}.

Lemma idStep_del a k : k <> "id" -> idStep (delete k a) = idStep a.
Proof. intros Hk. unfold idStep. now rewrite at_delete_ne. Qed.

Lemma nameStep_del a k : k <> "name" -> nameStep (delete k a) = nameStep a.
Proof. intros Hk. unfold nameStep. now rewrite at_delete_ne. Qed.

Lemma dateStep_del a k : k <> "date" -> dateStep (delete k a) = dateStep a.
Proof. intros Hk. unfold dateStep. now rewrite at_delete_ne. Qed.

Lemma indexStep_del a k : k <> "index" -> indexStep (delete k a) = indexStep a.
Proof. intros Hk. unfold indexStep. now rewrite at_delete_ne. Qed.

Lemma uniqueStep_del a k : k <> "unique" -> uniqueStep (delete k a) = uniqueStep a.
Proof. intros Hk. unfold uniqueStep. now rewrite at_delete_ne. Qed.

Lemma uidStep_del a k : k <> "uid" -> uidStep (delete k a) = uidStep a.
Proof. intros Hk. unfold uidStep. now rewrite at_delete_ne. Qed.

Lemma andThen_last (s1 s2 s3 s4 s5 s6 : step) field :
  andThen s1 (andThen s2 (andThen s3 (andThen s4 (andThen s5 s6)))) field =
  match andThen s1 (andThen s2 (andThen s3 (andThen s4 (andThen s5 skip)))) field with
  | (field', Ok _) => s6 field'
  | r => r
  end.
Proof.
  unfold andThen, skip.
  destruct (s1 field) as [f1 [[]| |]]; try reflexivity.
  destruct (s2 f1) as [f2 [[]| |]]; try reflexivity.
  destruct (s3 f2) as [f3 [[]| |]]; try reflexivity.
  destruct (s4 f3) as [f4 [[]| |]]; try reflexivity.
  destruct (s5 f4) as [f5 [[]| |]]; reflexivity.
Qed.

Lemma CreateIdUid_relaxed id uid :
  0 <= id < 2 ^ 32 -> 0 <= uid < 2 ^ 64 ->
  GetIdAllowZero (CreateIdUid id uid) = Ok id
  /\ GetUidAllowZero (CreateIdUid id uid) = Ok uid.
Proof.
  intros Hid Huid.
  destruct (CreateIdUid_shape id uid Hid Huid)
    as (x & y & E & Hx & Hy & Nx & Ny & Vx & Vy & _).
  assert (x +:+ String colon y <> EmptyString) as Hne by (destruct x; discriminate).
  rewrite E. unfold GetIdAllowZero, GetUidAllowZero. split.
  - rewrite (getComponent_of_digits _ 0 32 true x "id"); auto;
      [| now rewrite Split_two | rewrite Vx; unfold maxOf; lia].
    rewrite Vx, andb_false_r. rewrite mod_two32_small by (unfold maxOf; lia).
    reflexivity.
  - rewrite (getComponent_of_digits _ 1 64 true y "uid"); auto;
      [| now rewrite Split_two | rewrite Vy; unfold maxOf; lia].
    now rewrite Vy, andb_false_r.
Qed.

Lemma GetIdAllowZero_range s id : GetIdAllowZero s = Ok id -> 0 <= id < 2 ^ 32.
Proof.
  unfold GetIdAllowZero.
  destruct (getComponent s 0 32 true) as [v| |] eqn:E; try discriminate.
  intros [= <-]. apply getComponent_Ok in E as (c & _ & _ & _ & _ & Hr & _); [| now left].
  rewrite mod_two32_small by exact Hr. unfold maxOf in Hr. lia.
Qed.

(** Without an index or a unique annotation, nothing before the uid block
    touches the identifier of the property. *)
Lemma before_uid_keeps_PId a field :
  at_ a "index" = None -> at_ a "unique" = None ->
  PId (property (fst (andThen (idStep a) (andThen (nameStep a) (andThen (dateStep a)
         (andThen (indexStep a) (andThen (uniqueStep a) skip)))) field)))
  = PId (property field).
Proof.
  intros Hi Hu.
  unfold andThen, idStep, nameStep, dateStep, indexStep, uniqueStep, skip.
  rewrite Hi, Hu.
  destruct (at_ a "id"); destruct (at_ a "name") as [n|]; simpl;
    try destruct (String.length (Value n) =? 0)%nat; simpl;
    destruct (at_ a "date"); simpl;
    try destruct (PropertyType_eqb (Type_ (property field)) PropertyTypeLong);
    reflexivity.
Qed.

End AnnotationSteps.

(** C9, as stated, fails: the date annotation on a property of the integer
    type Int is an error. *)
Lemma date_on_int_is_rejected :
  isIntegerType PropertyTypeInt = true
  /\ @ProcessAnnotations Samples.pkg {[ "date" := Samples.ann "" ]}
       (CreateField (Samples.prop PropertyTypeInt "0:0"))
     = (CreateField (Samples.prop PropertyTypeInt "0:0"),
        Err (ErrDateType PropertyTypeInt)).
Proof. split; vm_compute; reflexivity. Qed.

(** C9, amended. The date tag refines the type Long alone. On a property
    whose type is not [PropertyTypeLong] (the other integer types included),
    [ProcessAnnotations] with a date annotation returns an error and leaves
    the type as it was. On a property of type [PropertyTypeLong] it does what
    it does without the date annotation on the property retyped to
    [PropertyTypeDate] (when the name annotation, if any, is not empty), and
    with the date annotation alone it succeeds with the type rewritten to
    [PropertyTypeDate]. The ignore annotation ["-"] is taken to be absent. *)
Theorem date_annotation_requires_long `{ModelPkg} :
  forall (a : Annotations) (field : Field) (ann : Annotation),
    at_ a "-" = None ->
    at_ a "date" = Some ann ->
    (Type_ (property field) <> PropertyTypeLong ->
       exists field' e,
         ProcessAnnotations a field = (field', Err e)
         /\ (e = ErrDateType (Type_ (property field)) \/ e = ErrNameEmpty)
         /\ Type_ (property field') = Type_ (property field))
    /\ (Type_ (property field) = PropertyTypeLong ->
        (forall n, at_ a "name" = Some n -> Value n <> EmptyString) ->
        ProcessAnnotations a field =
          ProcessAnnotations (delete "date" a)
            (withProperty field (setType (property field) PropertyTypeDate)))
    /\ (Type_ (property field) = PropertyTypeLong ->
        ProcessAnnotations {[ "date" := Some ann ]} field =
          (withProperty field (setType (property field) PropertyTypeDate), Ok tt)).
Proof.
  intros a field ann Hskip Hdate. split; [| split].
  - intros Hty. unfold ProcessAnnotations. rewrite Hskip. unfold andThen.
    pose proof (idStep_Type a field) as [T1 R1].
    destruct (idStep a field) as [f1 r1]. simpl in T1, R1. subst r1.
    pose proof (nameStep_Type a f1) as T2. pose proof (nameStep_result a f1) as R2.
    destruct (nameStep a f1) as [f2 r2]. simpl in T2, R2.
    destruct R2 as [-> | ->].
    + unfold dateStep. rewrite Hdate.
      assert (PropertyType_eqb (Type_ (property f2)) PropertyTypeLong = false) as ->
        by (apply PropertyType_eqb_neq; congruence).
      simpl. exists f2, (ErrDateType (Type_ (property f2))).
      rewrite T2, T1. auto.
    + exists f2, ErrNameEmpty. rewrite T2, T1. auto.
  - intros Hty Hname. unfold ProcessAnnotations.
    rewrite at_delete_ne by discriminate. rewrite Hskip.
    rewrite idStep_del, nameStep_del, indexStep_del, uniqueStep_del, uidStep_del
      by discriminate.
    set (rest := andThen (indexStep a) (andThen (uniqueStep a) (uidStep a))).
    unfold andThen, idStep, nameStep, dateStep.
    rewrite at_delete_eq, Hdate.
    destruct field as [fn sk [nm ty id fl ix ur]]. simpl in Hty. subst ty.
    destruct (at_ a "id"); destruct (at_ a "name") as [n|] eqn:En;
      try (rewrite (length_nonzero (Value n)) by (now apply Hname));
      reflexivity.
  - intros Hty. unfold ProcessAnnotations.
    rewrite at_singleton_ne by discriminate.
    unfold andThen, idStep, nameStep, dateStep, indexStep, uniqueStep, uidStep.
    rewrite at_singleton_eq. rewrite !at_singleton_ne by discriminate.
    destruct field as [fn sk [nm ty id fl ix ur]]. simpl in Hty. subst ty.
    reflexivity.
Qed.

Lemma date_annotation_requires_long_witness :
  at_ ({[ "date" := Samples.ann "" ]} : Annotations) "-" = None
  /\ @ProcessAnnotations Samples.pkg {[ "date" := Samples.ann "" ]}
       (CreateField (Samples.prop PropertyTypeLong "0:0"))
     = (CreateField (Samples.prop PropertyTypeDate "0:0"), Ok tt).
Proof.
  split; [reflexivity |].
  apply (@date_annotation_requires_long Samples.pkg {[ "date" := Samples.ann "" ]}
           (CreateField (Samples.prop PropertyTypeLong "0:0"))
           (mkAnnotation "")); reflexivity.
Defined.

(** C10. With a uid annotation whose value is not empty and parses as a
    64-bit number [uid] (and no ignore annotation), [ProcessAnnotations] does
    what it does without that annotation and then, if that succeeded,
    replaces the identifier of the property by [CreateIdUid id uid], where
    [id] is the id component (possibly zero) of the identifier it had (the
    one it came with, when there is no index and no unique annotation); no
    other field of the property or of the field changes. The new identifier
    has the id component [id] and the uid component [uid]. If the previous
    identifier has no readable id component, the function returns an error
    instead. *)
Theorem uid_annotation_rewrites_uid_only `{ModelPkg} :
  forall (a : Annotations) (field : Field) (ann : Annotation) (uid : Uid),
    at_ a "-" = None ->
    at_ a "uid" = Some ann ->
    Value ann <> EmptyString ->
    ParseUint (Value ann) 64 = inr uid ->
    exists field1 r1,
      ProcessAnnotations (delete "uid" a) field = (field1, r1)
      /\ (at_ a "index" = None -> at_ a "unique" = None ->
          PId (property field1) = PId (property field))
      /\ match r1 with
         | Ok _ =>
             match GetIdAllowZero (PId (property field1)) with
             | Ok id =>
                 ProcessAnnotations a field =
                   (withProperty field1
                      (setId (property field1) (CreateIdUid id uid)), Ok tt)
                 /\ GetIdAllowZero (CreateIdUid id uid) = Ok id
                 /\ GetUidAllowZero (CreateIdUid id uid) = Ok uid
             | Err e =>
                 ProcessAnnotations a field = (field1, Err (ErrCantParsePropertyId e))
             | Panic => False
             end
         | _ => ProcessAnnotations a field = (field1, r1)
         end.
Proof.
  intros a field ann uid Hskip Huid Hval Hparse.
  unfold ProcessAnnotations.
  rewrite at_delete_ne by discriminate. rewrite Hskip.
  rewrite idStep_del, nameStep_del, dateStep_del, indexStep_del, uniqueStep_del
    by discriminate.
  rewrite (andThen_last _ _ _ _ _ (uidStep (delete "uid" a))).
  rewrite (andThen_last _ _ _ _ _ (uidStep a)).
  pose proof (before_uid_keeps_PId a field) as Hkeep.
  destruct (andThen (idStep a) (andThen (nameStep a) (andThen (dateStep a)
              (andThen (indexStep a) (andThen (uniqueStep a) skip)))) field)
    as [f1 r1].
  simpl in Hkeep.
  destruct r1 as [[]|e|].
  - exists f1, (Ok tt). split; [| split; [exact Hkeep |]].
    + unfold uidStep. now rewrite at_delete_eq.
    + unfold uidStep. rewrite Huid, (length_nonzero _ Hval), Hparse.
      pose proof (GetIdAllowZero_no_panic (PId (property f1))) as Hnp.
      destruct (GetIdAllowZero (PId (property f1))) as [id|e|] eqn:Eid;
        [| reflexivity | congruence].
      split; [reflexivity |].
      apply CreateIdUid_relaxed.
      * now apply GetIdAllowZero_range in Eid.
      * apply ParseUint_nonneg in Hparse; [| now right]. unfold maxOf in Hparse. lia.
  - exists f1, (Err e). split; [reflexivity | split; [exact Hkeep | reflexivity]].
  - exists f1, Panic. split; [reflexivity | split; [exact Hkeep | reflexivity]].
Qed.

Lemma uid_annotation_rewrites_uid_only_witness :
  @ProcessAnnotations Samples.pkg {[ "uid" := Samples.ann "1234" ]}
    (CreateField (Samples.prop PropertyTypeString "0:0"))
  = (CreateField (Samples.prop PropertyTypeString "0:1234"), Ok tt).
Proof.
  assert (Value (mkAnnotation "1234") <> EmptyString) as Hval by discriminate.
  assert (at_ ({[ "uid" := Samples.ann "1234" ]} : Annotations) "-" = None)
    as Hskip by reflexivity.
  assert (at_ ({[ "uid" := Samples.ann "1234" ]} : Annotations) "uid"
          = Some (mkAnnotation "1234")) as Huid by reflexivity.
  assert (ParseUint "1234" 64 = inr 1234) as Hparse by reflexivity.
  destruct (@uid_annotation_rewrites_uid_only Samples.pkg
              {[ "uid" := Samples.ann "1234" ]}
              (CreateField (Samples.prop PropertyTypeString "0:0"))
              (mkAnnotation "1234") 1234 Hskip Huid Hval Hparse)
    as (f1 & r1 & E1 & _ & E2).
  vm_compute in E1. injection E1 as <- <-.
  simpl in E2. destruct E2 as (E2 & _). exact E2.
Defined.

Example uid_request_without_value :
  @ProcessAnnotations Samples.pkg {[ "uid" := Samples.ann "" ]}
    (CreateField (Samples.prop PropertyTypeString "0:0"))
  = (CreateField
       {| Name := "created"; Type_ := PropertyTypeString; PId := "0:0";
          Flags := 0; IndexId := None; UidRequest := true |}, Ok tt).
Proof. vm_compute. reflexivity. Qed.

Example uid_on_unset_identifier :
  @ProcessAnnotations Samples.pkg {[ "uid" := Samples.ann "1234" ]}
    (CreateField (Samples.prop PropertyTypeString ""))
  = (CreateField (Samples.prop PropertyTypeString ""),
     Err (ErrCantParsePropertyId (ErrUndefined "id"))).
Proof. vm_compute. reflexivity. Qed.

Example ignore_with_another_annotation :
  @ProcessAnnotations Samples.pkg
    {[ "-" := Samples.ann ""; "date" := Samples.ann "" ]}
    (CreateField (Samples.prop PropertyTypeLong "0:0"))
  = (CreateField (Samples.prop PropertyTypeLong "0:0"), Err ErrIgnoreOnly).
Proof. vm_compute. reflexivity. Qed.

(** ** The schema reader *)

Import reflection cgenerator.

Section ReaderFacts.
Variable table : BaseType -> PropertyType.

Lemma forRange_invariant {S : Type} (P : S -> Prop) body :
  (forall j s, P s -> P (fst (body j s))) ->
  forall n i s, P s -> P (fst (forRange n i body s)).
Proof.
  intros Hbody. induction n as [|n IH]; intros i s Hs; [exact Hs |].
  simpl. pose proof (Hbody i s Hs) as H1.
  destruct (body i s) as [s1 [e|]]; [exact H1 |]. now apply IH.
Qed.

Lemma forRange_success {S : Type} (P : nat -> S -> Prop) body :
  (forall j s s1, P j s -> body j s = (s1, None) -> P (Datatypes.S j) s1) ->
  forall n i s s', P i s -> forRange n i body s = (s', None) -> P (n + i)%nat s'.
Proof.
  intros Hbody. induction n as [|n IH]; intros i s s' Hs Hr.
  - simpl in Hr. now injection Hr as <-.
  - simpl in Hr. destruct (body i s) as [s1 [e|]] eqn:E; [discriminate |].
    replace (Datatypes.S n + i)%nat with (n + Datatypes.S i)%nat by lia.
    eapply IH; [| exact Hr]. eapply Hbody; eauto.
Qed.

Lemma firstn_snoc {A : Type} (l : list A) j x :
  nth_error l j = Some x -> firstn (Datatypes.S j) l = firstn j l ++ [x].
Proof.
  revert j. induction l as [|y l IH]; intros [|j] Hj; try discriminate.
  - injection Hj as ->. reflexivity.
  - simpl in Hj. simpl. f_equal. now apply IH.
Qed.

Lemma readObjectField_unset field entity :
  identifiersUnset entity ->
  identifiersUnset (fst (readObjectField table field entity)).
Proof.
  intros [He Hp]. unfold readObjectField.
  destruct (FieldType field) as [ty|]; [| now split].
  set (typed := match BaseType_ ty with BaseTypeVector => _ | _ => _ end).
  assert (forall p, typed = inr p -> PId p = unsetIdUid) as Hid.
  { intros p. unfold typed.
    destruct (BaseType_ ty); try (intros [= <-]; reflexivity).
    destruct (Element ty); try discriminate; intros [= <-]; reflexivity. }
  destruct typed as [err|p]; [now split |].
  destruct (PropertyType_eqb (Type_ p) PropertyTypeUnset); [now split |].
  split; [exact He |]. simpl. apply Forall_app. split; [exact Hp |].
  constructor; [now apply Hid | constructor].
Qed.

Lemma readObjectField_name field entity :
  EName (fst (readObjectField table field entity)) = EName entity.
Proof.
  unfold readObjectField. destruct (FieldType field) as [ty|]; [| reflexivity].
  destruct (match BaseType_ ty with BaseTypeVector => _ | _ => _ end) as [err|p];
    [reflexivity |].
  destruct (PropertyType_eqb (Type_ p) PropertyTypeUnset); reflexivity.
Qed.

Lemma fieldsBody_fst object i entity :
  fst (fieldsBody table object i entity) = entity
  \/ exists field, fst (fieldsBody table object i entity)
                   = fst (readObjectField table field entity).
Proof.
  unfold fieldsBody. destruct (Fields object i) as [field|]; [| now left].
  right. exists field. destruct (readObjectField table field entity) as [e' [err|]];
    reflexivity.
Qed.

Lemma fieldsBody_keeps object j entity :
  identifiersUnset entity /\ EName entity = ObjectName object ->
  identifiersUnset (fst (fieldsBody table object j entity))
  /\ EName (fst (fieldsBody table object j entity)) = ObjectName object.
Proof.
  intros [Hu Hn].
  destruct (fieldsBody_fst object j entity) as [-> | (field & ->)]; [now split |].
  split; [now apply readObjectField_unset |].
  now rewrite readObjectField_name.
Qed.

(** What [readObject] does to the model: nothing, or one more entity, named
    after the object, with its identifiers unset. *)
Lemma readObject_cases object model :
  (exists err, readObject table object model = (model, Some err))
  \/ (exists entity, readObject table object model = (appendEntity model entity, None)
                     /\ identifiersUnset entity /\ EName entity = ObjectName object).
Proof.
  unfold readObject. fold (fieldsBody table object).
  set (e0 := setEntityName (CreateEntity model 0 0) (ObjectName object)).
  pose proof (forRange_invariant
                (fun e => identifiersUnset e /\ EName e = ObjectName object)
                (fieldsBody table object) (fieldsBody_keeps object)
                (FieldsLength object) O e0) as Hinv.
  destruct (forRange (FieldsLength object) 0 (fieldsBody table object) e0) as [e' [err|]].
  - left. now exists err.
  - right. exists e'. split; [reflexivity |]. apply Hinv.
    split; [split; [reflexivity | constructor] | reflexivity].
Qed.

Lemma read_unfold schema model :
  read table schema model = forRange (ObjectsLength schema) 0 (objectsBody table schema) model.
Proof. reflexivity. Qed.

Lemma objectsBody_unset schema model j s :
  extends model (Forall identifiersUnset) s ->
  extends model (Forall identifiersUnset) (fst (objectsBody table schema j s)).
Proof.
  intros (new & En & Hn). unfold objectsBody.
  destruct (Objects schema j) as [object|]; [| now exists new].
  destruct (readObject_cases object s) as [(err & ->) | (entity & -> & Hu & _)].
  - now exists new.
  - exists (new ++ [entity]). simpl. rewrite En, app_assoc. split; [reflexivity |].
    apply Forall_app. split; [exact Hn | now constructor].
Qed.

Lemma objectsBody_names schema model j s s1 :
  extends model (fun new => map EName new = map ObjectName (firstn j (SchemaObjects schema))) s ->
  objectsBody table schema j s = (s1, None) ->
  extends model
    (fun new => map EName new = map ObjectName (firstn (Datatypes.S j) (SchemaObjects schema))) s1.
Proof.
  intros (new & En & Hn). unfold objectsBody, Objects.
  destruct (nth_error (SchemaObjects schema) j) as [object|] eqn:Eo; [| discriminate].
  destruct (readObject_cases object s) as [(err & ->) | (entity & -> & _ & Hname)];
    [discriminate |].
  intros [= <-]. exists (new ++ [entity]). simpl. rewrite En, app_assoc.
  split; [reflexivity |].
  rewrite (firstn_snoc _ _ object) by exact Eo.
  rewrite !map_app, Hn. simpl. now rewrite Hname.
Qed.

End ReaderFacts.

(** C7. Whatever the schema and the table of types, the reader only appends
    entities to the model, and every entity it appends, with every property
    of it, has the Identifier [CreateIdUid 0 0], whose id and uid components
    are both zero; this holds on the error paths too. When the reader
    succeeds, the appended entities are the objects of the schema, by name
    and in order. *)
Theorem read_leaves_identifiers_unset :
  forall (fbsTypeToObxType : BaseType -> PropertyType) (schema : Schema) (model : ModelInfo),
    GetIdAllowZero unsetIdUid = Ok 0
    /\ GetUidAllowZero unsetIdUid = Ok 0
    /\ exists new,
         Entities (fst (read fbsTypeToObxType schema model)) = Entities model ++ new
         /\ Forall identifiersUnset new
         /\ (snd (read fbsTypeToObxType schema model) = None ->
             map EName new = map ObjectName (SchemaObjects schema)).
Proof.
  intros table schema model.
  split; [reflexivity |]. split; [reflexivity |].
  rewrite read_unfold.
  pose proof (forRange_invariant (extends model (Forall identifiersUnset))
                (objectsBody table schema) (objectsBody_unset table schema model)
                (ObjectsLength schema) O model) as Hinv.
  destruct Hinv as (new & En & Hn); [exists []; split; [now rewrite app_nil_r | constructor] |].
  exists new. split; [exact En |]. split; [exact Hn |].
  intros Hok.
  destruct (forRange (ObjectsLength schema) 0 (objectsBody table schema) model)
    as [model' r] eqn:E.
  simpl in Hok, En. subst r.
  pose proof (forRange_success
                (fun j s => extends model
                   (fun new => map EName new
                               = map ObjectName (firstn j (SchemaObjects schema))) s)
                (objectsBody table schema)
                (objectsBody_names table schema model)
                (ObjectsLength schema) O model model') as Hs.
  destruct Hs as (new' & En' & Hn'); [exists []; split; [now rewrite app_nil_r | reflexivity] | exact E |].
  rewrite En in En'. apply app_inv_head in En'. subst new'.
  rewrite Hn'. unfold ObjectsLength. rewrite Nat.add_0_r, firstn_all. reflexivity.
Qed.

Example read_taskSchema :
  read Samples.fbsTypeToObxType Samples.taskSchema Samples.noModel
  = ({| Entities :=
          [ {| EName := "Task"; EId := "0:0";
               Properties :=
                 [ {| Name := "id"; Type_ := PropertyTypeLong; PId := "0:0";
                      Flags := 0; IndexId := None; UidRequest := false |};
                   {| Name := "text"; Type_ := PropertyTypeString; PId := "0:0";
                      Flags := 0; IndexId := None; UidRequest := false |} ];
               CurrentlyPresent := false; Meta := None |} ];
        MRand := None; MinimumParserVersion := 0; ModelVersion := 0 |}, None).
Proof. reflexivity. Qed.

Example read_unsupported_field :
  snd (read Samples.fbsTypeToObxType
         {| SchemaObjects :=
              [ {| ObjectName := "Being";
                   ObjectFields :=
                     [ Samples.scalar "age" BaseTypeShort;
                       {| FieldName := "belongings";
                          FieldType := Some {| BaseType_ := BaseTypeVector;
                                               Element := BaseTypeObj |} |} ] |} ] |}
         Samples.noModel)
  = Some (ErrObject 0 "Being"
            (ErrField 1 "belongings" (ErrUnsupportedVectorElement BaseTypeObj))).
Proof. reflexivity. Qed.

(** ** The driver *)

Import generator TraceSpec.

Section Hoare.
Context {S : Type} (tr : S -> list Event).

Lemma spec_ret {A : Type} (P : Phase -> Prop) (a : A) : spec tr P (ret a) P.
Proof. intros s Hs. exact Hs. Qed.

Lemma spec_bind {A B : Type} (P Q R : Phase -> Prop) (m : M S A) (k : A -> M S B) :
  spec tr P m Q -> (forall a, spec tr Q (k a) R) -> spec tr P (bind m k) R.
Proof.
  intros Hm Hk s Hs. specialize (Hm s Hs). unfold bind.
  destruct (m s) as [s' [a|e|]]; simpl in *; [now apply Hk | exact Hm | exact Hm].
Qed.

Lemma spec_forEach {A : Type} (P : Phase -> Prop) (xs : list A) (body : A -> M S unit) :
  (forall x, spec tr P (body x) P) -> spec tr P (forEach xs body) P.
Proof.
  intros Hb. induction xs as [|x xs IH]; simpl.
  - apply spec_ret.
  - eapply spec_bind; [apply Hb | intros _; exact IH].
Qed.

Lemma spec_pre {A : Type} (P P' Q : Phase -> Prop) (m : M S A) :
  (forall q, P' q -> P q) -> spec tr P m Q -> spec tr P' m Q.
Proof. intros Hp Hm s Hs. apply Hm, Hp, Hs. Qed.

Lemma spec_post {A : Type} (P Q Q' : Phase -> Prop) (m : M S A) :
  (forall q, Q q -> Q' q) -> spec tr P m Q -> spec tr P m Q'.
Proof.
  intros Hq Hm s Hs. specialize (Hm s Hs).
  destruct (snd (m s)); simpl in *; auto.
Qed.

Lemma spec_pathForEach `{Env World} (rd : S -> World) (fn : string -> M S unit) :
  (forall p, spec tr (eq Settled) (fn p) (eq Settled)) ->
  forall fuel path, spec tr (eq Settled) (pathForEach rd fuel path fn) (eq Settled).
Proof.
  intros Hfn. induction fuel as [|fuel IH]; intros path s Hs.
  - simpl. now symmetry.
  - simpl.
    match goal with |- context [Glob ?p (rd s)] => destruct (Glob p (rd s)) as [err|matches] end.
    + simpl. now left.
    + revert s Hs. apply spec_forEach. intros subpath s Hs.
      destruct (Stat subpath (rd s)) as [err|finfo]; [simpl; now left |].
      destruct (HasSuffix path recursionSuffix && IsDir finfo); [now apply IH |].
      destruct (IsRegular finfo); [now apply Hfn | exact Hs].
Qed.

End Hoare.

Section DriverPhases.
Context {World : Type} `{Env World}.
Variable gen : CodeGenerator World.

Lemma phase_snoc l ev : phase (l ++ [ev]) = next (phase l) ev.
Proof. unfold phase. now rewrite fold_left_app. Qed.

(** A call on the registry behind a [wrap]: where it leaves the run. *)
Lemma spec_onModel (P Q : Phase -> Prop) prefix ev call :
  (forall q, P q -> Q (next q (ev None))) ->
  (forall q e, P q -> next q (ev (Some e)) = Failed None
                      \/ next q (ev (Some e)) = Failed (Some (prefix +:+ e))) ->
  spec (@trSt World) P (wrap prefix (onModel ev call)) Q.
Proof.
  intros Hok Herr s Hs. unfold wrap, onModel, trSt in *.
  destruct (call (model s)) as [m' [e|]]; simpl; rewrite phase_snoc.
  - destruct (Herr _ e Hs) as [-> | ->]; auto.
  - now apply Hok.
Qed.

Lemma spec_onWorld (P Q : Phase -> Prop) ev call :
  (forall q, P q -> Q (next q (ev None))) ->
  (forall q e, P q -> next q (ev (Some e)) = Failed None) ->
  spec (@trSt World) P (onWorld ev call) Q.
Proof.
  intros Hok Herr s Hs. unfold onWorld, trSt in *.
  destruct (call (model s) (worldOf s)) as [w' [e|]]; simpl; rewrite phase_snoc.
  - rewrite (Herr _ e Hs). auto.
  - now apply Hok.
Qed.

Lemma spec_wrap_onWorld (P Q : Phase -> Prop) prefix ev call :
  (forall q, P q -> Q (next q (ev None))) ->
  (forall q e, P q -> next q (ev (Some e)) = Failed None) ->
  spec (@trSt World) P (wrap prefix (onWorld ev call)) Q.
Proof.
  intros Hok Herr s Hs. unfold wrap, onWorld, trSt in *.
  destruct (call (model s) (worldOf s)) as [w' [e|]]; simpl; rewrite phase_snoc.
  - rewrite (Herr _ e Hs). auto.
  - now apply Hok.
Qed.

Lemma spec_update (P : Phase -> Prop) f : spec (@trSt World) P (update f) P.
Proof. intros s Hs. exact Hs. Qed.

Lemma spec_parseSource filePath :
  spec (@trSt World) (eq Settled) (parseSource gen filePath) (eq Settled).
Proof.
  intros s Hs. unfold parseSource, trSt in *.
  destruct (ParseSource gen filePath (worldOf s)) as [err|m]; simpl;
    rewrite phase_snoc, <- Hs; simpl; auto.
Qed.

Lemma spec_finalize :
  spec (@trSt World) running finalize (eq Settled).
Proof.
  apply spec_onModel.
  - intros q [-> | ->]; reflexivity.
  - intros q e [-> | ->]; right; reflexivity.
Qed.

Lemma spec_createBinding fuel options :
  spec (@trSt World) (eq Settled) (createBinding gen fuel options) (eq Settled).
Proof.
  apply spec_pathForEach. intros filePath.
  destruct (IsSourceFile gen filePath); simpl; [| apply spec_ret].
  eapply spec_bind; [apply spec_update | intros _].
  eapply spec_bind; [apply spec_parseSource | intros currentModel].
  eapply spec_bind with (Q := eq Pending).
  { apply spec_onModel.
    - intros q <-. reflexivity.
    - intros q e <-. right. reflexivity. }
  intros _.
  eapply spec_bind.
  { eapply spec_pre; [| apply spec_finalize]. intros q <-. now right. }
  intros _.
  eapply spec_bind; [| intros _; apply spec_update].
  apply spec_onWorld.
  - intros q <-. reflexivity.
  - intros q e <-. reflexivity.
Qed.

Lemma spec_removals (removed : list Entity) :
  spec (@trSt World) running
    (forEach removed
       (fun entity =>
          wrap ("removing entity " +:+ EName entity +:+ " failed: ")
            (onModel (EvRemoveEntity entity) (RemoveEntity entity))))
    running.
Proof.
  apply spec_forEach. intros entity. apply spec_onModel.
  - intros q [-> | ->]; right; reflexivity.
  - intros q e [-> | ->]; left; reflexivity.
Qed.

Lemma spec_createModel options :
  spec (@trSt World) (eq Settled) (createModel gen options) (eq Written).
Proof.
  intros s Hs. unfold createModel.
  set (m := bind _ _).
  assert (spec (@trSt World) (eq Settled) m (eq Written)) as Hm; [| exact (Hm s Hs)].
  unfold m. clear m.
  eapply spec_bind with (Q := eq Settled).
  { destruct (PathIsDirOrPattern (InPath options) (worldOf s)); [| apply spec_ret].
    eapply spec_bind; [| intros _; apply spec_finalize].
    eapply spec_pre; [| apply spec_removals]. intros q <-. now left. }
  intros _.
  eapply spec_bind with (Q := eq Written).
  { apply spec_wrap_onWorld.
    - intros q <-. reflexivity.
    - intros q e <-. reflexivity. }
  intros _. apply spec_onWorld.
  - intros q <-. reflexivity.
  - intros q e <-. reflexivity.
Qed.

Lemma spec_processModel fuel options :
  spec (@trSt World) (eq Settled) (processModel gen fuel options) (eq Written).
Proof.
  unfold processModel.
  eapply spec_bind with (Q := eq Settled).
  { apply spec_onModel.
    - intros q <-. reflexivity.
    - intros q e <-. left. reflexivity. }
  intros _.
  eapply spec_bind; [apply spec_update | intros _].
  eapply spec_bind; [apply spec_createBinding | intros _].
  apply spec_createModel.
Qed.

Lemma spec_mkdir prefix path :
  spec (@trSys World) (eq Settled) (wrap prefix (mkdir path)) (eq Settled).
Proof.
  intros s Hs. unfold wrap, mkdir, trSys in *.
  destruct (MkdirAll path (world s)) as [w' [e|]]; simpl;
    rewrite phase_snoc, <- Hs; simpl; auto.
Qed.

Lemma spec_Clean fuel path :
  spec (@trSys World) (eq Settled) (Clean gen fuel path) (eq Settled).
Proof.
  apply spec_pathForEach. intros filePath s Hs. unfold trSys in *.
  destruct (IsGeneratedFile gen filePath); simpl; [| exact Hs].
  destruct (Remove filePath (world s)) as [w' [e|]]; simpl;
    rewrite phase_snoc, <- Hs; simpl; auto.
Qed.

Lemma spec_prepare fuel options :
  spec (@trSys World) (eq Settled) (prepare gen fuel options) (eq Settled).
Proof.
  unfold prepare.
  eapply spec_bind.
  { destruct (negb _); [apply spec_mkdir | apply spec_ret]. }
  intros _. eapply spec_bind.
  { destruct (negb _); [apply spec_mkdir | apply spec_ret]. }
  intros _ s Hs.
  destruct (PathIsDirOrPattern (InPath options) (world s)); [| exact Hs].
  now apply spec_Clean.
Qed.

Lemma spec_loadModel options :
  spec (@trSys World) (eq Settled) (loadModel options) (eq Settled).
Proof.
  intros s Hs. unfold loadModel, trSys in *.
  match goal with |- context [LoadOrCreateModel ?f (world s)] =>
    destruct (LoadOrCreateModel f (world s)) as [w' [err|m]] end; simpl;
    rewrite phase_snoc, <- Hs; simpl; auto.
Qed.

(** Where a run of [Process] ends. *)
Lemma Process_phase fuel options w :
  let out := Process gen fuel options w in
  match out_res out with
  | Val _ => phase (trace (out_sys out)) = Written
  | Fail e =>
      phase (trace (out_sys out)) = Settled
      \/ phase (trace (out_sys out)) = Failed None
      \/ phase (trace (out_sys out)) = Failed (Some e)
  | OutOfFuel => phase (trace (out_sys out)) = Settled
  end.
Proof.
  unfold Process.
  pose proof (spec_bind (@trSys World) _ _ _ _ _ (spec_prepare fuel options)
                (fun _ => spec_loadModel options)
                {| world := w; trace := [] |} eq_refl) as H1.
  destruct (bind (prepare gen fuel options) (fun _ => loadModel options)
              {| world := w; trace := [] |}) as [s1 [[options' modelInfo]|e|]];
    simpl in H1; [| exact H1 | exact H1].
  pose proof (spec_processModel fuel options' {| sys := s1; model := modelInfo |} H1) as H2.
  destruct (processModel gen fuel options' {| sys := s1; model := modelInfo |})
    as [s2 r]. simpl in *. unfold trSt in H2. rewrite phase_snoc.
  destruct r as [[]|e|]; simpl in H2.
  - now rewrite <- H2.
  - destruct H2 as [-> | [-> | ->]]; auto.
  - now rewrite H2.
Qed.

End DriverPhases.

Section PhaseFacts.

Lemma run_Bad l : fold_left next l Bad = Bad.
Proof. induction l as [|ev l IH]; [reflexivity | exact IH]. Qed.

Lemma run_Failed l : forall o,
  fold_left next l (Failed o) <> Bad ->
  fold_left next l (Failed o) = Failed o /\ forallb isClose l = true.
Proof.
  induction l as [|ev l IH]; intros o Hnb; [now split |].
  simpl in *. destruct ev; simpl in *; try (now rewrite run_Bad in Hnb).
  now apply IH.
Qed.

Lemma isClose_afterWrite l : forallb isClose l = true -> forallb afterWrite l = true.
Proof.
  induction l as [|ev l IH]; [reflexivity |]. simpl.
  intros Hc. apply andb_true_iff in Hc as [Hev Hl].
  rewrite (IH Hl). destruct ev; try discriminate. reflexivity.
Qed.

Lemma run_Written l :
  fold_left next l Written <> Bad -> forallb afterWrite l = true.
Proof.
  induction l as [|ev l IH]; intros Hnb; [reflexivity |].
  simpl in *. destruct ev as [| | | | | | | | | |[e|]|]; simpl in *;
    try (now rewrite run_Bad in Hnb); try (now apply IH).
  apply run_Failed in Hnb as [_ Hc]. now apply isClose_afterWrite.
Qed.

Lemma running_dec q : running q \/ ~ running q.
Proof.
  destruct q; try (left; now left); try (left; now right);
    right; intros [?|?]; discriminate.
Qed.

Lemma run_closed l : forall q, ~ running q -> ~ running (fold_left next l q).
Proof.
  induction l as [|ev l IH]; intros q Hq; [exact Hq |].
  simpl. apply IH. intros Ho. apply Hq.
  destruct q; try (now left); try (now right);
    destruct ev as [| | | | | | | | | |[e|]|]; simpl in Ho;
    destruct Ho; discriminate.
Qed.

(** A run that is still [Settled] or [Pending] saw only successful calls,
    never wrote the model file, and is [Pending] exactly when a merge or a
    removal waits for its [Finalize]. *)
Lemma run_open l : forall q,
  running q -> running (fold_left next l q) ->
  forallb succeeded l = true
  /\ forallb (fun ev => negb (isWrite ev)) l = true
  /\ flag (fold_left next l q) = fold_left pend l (flag q).
Proof.
  induction l as [|ev l IH]; intros q Hq Hend; [now repeat split |].
  simpl in Hend.
  assert (running (next q ev)) as Hstep.
  { destruct (running_dec (next q ev)) as [Ho | Hn]; [exact Ho |].
    now apply (run_closed l) in Hn. }
  destruct (IH _ Hstep Hend) as (H1 & H2 & H3).
  simpl. rewrite H1, H2, H3.
  destruct Hq as [-> | ->];
    each_event ev;
    simpl in Hstep; destruct Hstep as [Hs | Hs]; try discriminate Hs;
    repeat split; reflexivity.
Qed.

End PhaseFacts.

Section TraceFacts.

Lemma phase_app l1 l2 : phase (l1 ++ l2) = fold_left next l2 (phase l1).
Proof. unfold phase. apply fold_left_app. Qed.

Lemma unfinalized_pend l : unfinalized l = fold_left pend l false.
Proof. reflexivity. Qed.

(** Around a [Write] in a run that never reaches [Bad]. *)
Lemma around_Write pre err post :
  phase (pre ++ EvWrite err :: post) <> Bad ->
  forallb succeeded pre = true /\ unfinalized pre = false
  /\ forallb afterWrite post = true.
Proof.
  rewrite phase_app. simpl. intros Hnb.
  assert (phase pre = Settled) as Hpre.
  { destruct (phase pre); try reflexivity;
      destruct err; simpl in Hnb; now rewrite run_Bad in Hnb. }
  destruct (run_open pre Settled) as (H1 & _ & H3); [now left | left; exact Hpre |].
  fold (phase pre) in H3. rewrite Hpre in H3. simpl in H3.
  rewrite unfinalized_pend, <- H3. repeat split; try assumption.
  rewrite Hpre in Hnb. destruct err as [e|]; simpl in Hnb.
  - apply run_Failed in Hnb as [_ Hc]. now apply isClose_afterWrite.
  - now apply run_Written.
Qed.

(** A failing call in a run that never reaches [Bad] ends the run. *)
Lemma failing_call_ends tr ev :
  phase tr <> Bad -> In ev tr -> succeeded ev = false -> isClose ev = false ->
  isWrite ev = false ->
  (match ev with EvWriteModelBindingFile _ => false | _ => true end) = true ->
  phase tr = fails ev /\ forall x, ~ In (EvWrite x) tr.
Proof.
  intros Hnb Hin Hfail Hclose Hwrite Hkind.
  apply in_split in Hin as (a & b & ->).
  rewrite phase_app in *. simpl in *.
  assert (running (phase a)) as Hrun.
  { destruct (phase a) eqn:Ea; try (now left); try (now right);
      exfalso; apply Hnb;
      each_event ev;
      simpl in *; try discriminate; apply run_Bad. }
  assert (next (phase a) ev = fails ev) as Hstep.
  { destruct Hrun as [-> | ->];
      each_event ev;
      simpl in *; try discriminate; reflexivity. }
  rewrite Hstep in *.
  assert (exists o, fails ev = Failed o) as (o & Ho)
    by (destruct ev as [| | | | |? [?|]|[?|]| | | | |]; simpl; eauto).
  rewrite Ho in *. apply run_Failed in Hnb as [E Hb]. split; [exact E |].
  destruct (run_open a Settled) as (_ & Ha & _); [now left | exact Hrun |].
  intros x Hx. apply in_app_or in Hx as [Hx | [Hx | Hx]].
  - rewrite forallb_forall in Ha. now apply Ha in Hx.
  - subst ev. discriminate.
  - rewrite forallb_forall in Hb. now apply Hb in Hx.
Qed.

End TraceFacts.

(** C3, as stated, fails: run on a single file that is not a source file,
    [Process] writes the model file and no [Finalize] was called. *)
Lemma model_written_without_Finalize :
  let out := @Process _ Samples.env Samples.gen 5
               (Samples.options "notes.txt" None) Samples.project in
  trace (out_sys out)
  = [ EvLoad "./objectbox-model.json" None; EvValidate None; EvWrite None;
      EvWriteModelBindingFile None; EvClose ]
  /\ out_res out = Val tt.
Proof. vm_compute. split; reflexivity. Qed.

(** C3, amended. In every run of [Process], whatever the recursion depth
    granted and however the run ends: when [Write] is called, every call made
    before it succeeded, no merge and no removal of an entity is left without
    a successful [Finalize] after it, and only [WriteModelBindingFile] and
    [Close] follow; if a merge or a [Finalize] returns an error, [Process]
    returns that error, behind the text the code puts before it, and [Write]
    is not called in that run. *)
Theorem model_written_only_after_successful_passes
    {World : Type} `{Env World} (gen : CodeGenerator World) :
  forall (fuel : nat) (options : Options) (w : World),
    let out := Process gen fuel options w in
    let tr := trace (out_sys out) in
    (forall pre err post,
        tr = pre ++ EvWrite err :: post ->
        forallb succeeded pre = true /\ unfinalized pre = false
        /\ forallb afterWrite post = true)
    /\ (forall file e,
          In (EvMerge file (Some e)) tr ->
          out_res out = Fail ("can't merge model information: " +:+ e)
          /\ forall x, ~ In (EvWrite x) tr)
    /\ (forall e,
          In (EvFinalize (Some e)) tr ->
          out_res out = Fail ("model finalization failed: " +:+ e)
          /\ forall x, ~ In (EvWrite x) tr).
Proof.
  intros fuel options w out tr. subst tr.
  pose proof (Process_phase gen fuel options w) as Hph.
  cbv zeta in Hph. fold out in Hph. clearbody out.
  set (tr := trace (out_sys out)) in *.
  assert (phase tr <> Bad) as Hnb.
  { destruct (out_res out) as [[]|e'|]; simpl in Hph;
      [rewrite Hph | destruct Hph as [-> | [-> | ->]] | rewrite Hph]; discriminate. }
  assert (forall ev e, In ev tr -> succeeded ev = false -> isClose ev = false ->
            isWrite ev = false ->
            (match ev with EvWriteModelBindingFile _ => false | _ => true end) = true ->
            fails ev = Failed (Some e) ->
            out_res out = Fail e /\ forall x, ~ In (EvWrite x) tr) as Hfail.
  { intros ev e Hin H1 H2 H3 H4 Hf.
    destruct (failing_call_ends tr ev Hnb Hin H1 H2 H3 H4) as [E Hw].
    split; [| exact Hw]. rewrite Hf in E. rewrite E in Hph.
    destruct (out_res out) as [[]|e'|]; simpl in Hph; try discriminate.
    destruct Hph as [Hp | [Hp | Hp]]; try discriminate. now injection Hp as ->. }
  split; [| split].
  - intros pre err post E. apply (around_Write pre err post). now rewrite <- E.
  - intros file e Hin. now apply (Hfail (EvMerge file (Some e))).
  - intros e Hin. now apply (Hfail (EvFinalize (Some e))).
Qed.

Section CreateModelFacts.
Context {World : Type} `{Env World}.
Variable gen : CodeGenerator World.

Lemma removedBy_app a b : removedBy (a ++ b) = removedBy a ++ removedBy b.
Proof. unfold removedBy. apply flat_map_app. Qed.

Lemma removeOne_eq entity s :
  removeOne entity s =
    ({| sys := logSys (EvRemoveEntity entity (snd (RemoveEntity entity (model s))))
                 (worldOf s) (sys s);
        model := fst (RemoveEntity entity (model s)) |},
     match snd (RemoveEntity entity (model s)) with
     | None => Val tt
     | Some err => Fail (("removing entity " +:+ EName entity +:+ " failed: ") +:+ err)
     end).
Proof.
  unfold removeOne, wrap, onModel.
  destruct (RemoveEntity entity (model s)) as [m' [err|]]; reflexivity.
Qed.

(** The removal loop calls [RemoveEntity] on the collected entities in
    order, up to the first failure. *)
Lemma removal_loop (removed : list Entity) : forall s,
  exists evs rest,
    trace (sys (fst (forEach removed removeOne s))) = trace (sys s) ++ evs
    /\ removed = removedBy evs ++ rest
    /\ (snd (forEach removed removeOne s) = Val tt -> rest = [])
    /\ (forall ev, In ev evs -> exists e err, ev = EvRemoveEntity e err).
Proof.
  induction removed as [|entity removed IH]; intros s.
  - exists [], []. simpl. rewrite app_nil_r.
    split; [reflexivity |]. split; [reflexivity |]. split; [reflexivity |].
    intros ev [].
  - simpl. unfold bind. rewrite removeOne_eq.
    destruct (RemoveEntity entity (model s)) as [m' [err|]]; simpl.
    + exists [EvRemoveEntity entity (Some err)], removed. simpl.
      split; [reflexivity |]. split; [reflexivity |]. split; [discriminate |].
      intros ev [<- | []]. eauto.
    + match goal with |- context [forEach removed removeOne ?s1] =>
        destruct (IH s1) as (evs & rest & Et & Er & Ev & Hk) end.
      exists (EvRemoveEntity entity None :: evs), rest.
      rewrite Et. simpl. rewrite <- app_assoc. simpl.
      split; [reflexivity |]. split; [now rewrite Er at 1 |]. split; [exact Ev |].
      intros ev [<- | Hin]; eauto.
Qed.

Lemma removal_events evs :
  (forall ev, In ev evs -> exists e err, ev = EvRemoveEntity e err) ->
  forallb (fun ev => negb (isFinalize ev) && negb (isWrite ev)) evs = true.
Proof.
  intros Hk. apply forallb_forall. intros ev Hin.
  destruct (Hk ev Hin) as (e & err & ->). reflexivity.
Qed.

Lemma writeModel_events options s :
  model (fst (writeModel gen options s)) = model s
  /\ exists err,
       trace (sys (fst (writeModel gen options s)))
       = trace (sys s) ++ EvWrite err ::
           match err with
           | None =>
               [EvWriteModelBindingFile
                  (snd (WriteModelBindingFile gen options (model s)
                          (fst (Write (model s) (worldOf s)))))]
           | Some _ => []
           end.
Proof.
  unfold writeModel, bind, wrap, onWorld. 
  destruct (Write (model s) (worldOf s)) as [w1 [err|]] eqn:Ew; simpl.
  - split; [reflexivity |]. now exists (Some err).
  - unfold worldOf. simpl.
    destruct (WriteModelBindingFile gen options (model s) w1) as [w2 e2]; simpl.
    split; [reflexivity |]. exists None. now rewrite <- app_assoc.
Qed.

Lemma writeModel_removes_nothing options s :
  exists evs,
    trace (sys (fst (writeModel gen options s))) = trace (sys s) ++ evs
    /\ removedBy evs = []
    /\ forallb (fun ev => negb (isFinalize ev)) evs = true.
Proof.
  destruct (writeModel_events options s) as [_ (err & ->)].
  eexists. split; [reflexivity |]. destruct err; split; reflexivity.
Qed.

Lemma finalize_eq (s : @St World) :
  finalize s =
    ({| sys := logSys (EvFinalize (snd (Finalize (model s)))) (worldOf s) (sys s);
        model := fst (Finalize (model s)) |},
     match snd (Finalize (model s)) with
     | None => Val tt
     | Some err => Fail ("model finalization failed: " +:+ err)
     end).
Proof.
  unfold finalize, wrap, onModel.
  destruct (Finalize (model s)) as [m' [err|]]; reflexivity.
Qed.

Lemma createModel_eq options s :
  createModel gen options s =
    bind (if PathIsDirOrPattern (InPath options) (worldOf s) then
            bind (forEach
                    (filter (fun entity => negb (CurrentlyPresent entity))
                       (Entities (model s))) removeOne)
              (fun _ => finalize)
          else ret tt)
      (fun _ => writeModel gen options) s.
Proof. reflexivity. Qed.

End CreateModelFacts.

(** C2. [createModel] calls [RemoveEntity] only when [PathIsDirOrPattern]
    holds of the input path: then it calls it on the entities whose
    currently-present marker is false, in their order, up to the first
    failure, and on all of them when it returns no error. For any other input
    path, a single file, it calls neither [RemoveEntity] nor [Finalize] and
    leaves the registry as it was. *)
Theorem removal_only_for_directory_or_pattern
    {World : Type} `{Env World} (gen : CodeGenerator World) :
  forall (options : Options) (s : St),
    exists evs,
      trace (sys (fst (createModel gen options s))) = trace (sys s) ++ evs
      /\ if PathIsDirOrPattern (InPath options) (worldOf s) then
           exists rest,
             filter (fun entity => negb (CurrentlyPresent entity)) (Entities (model s))
             = removedBy evs ++ rest
             /\ (snd (createModel gen options s) = Val tt -> rest = [])
         else
           removedBy evs = []
           /\ forallb (fun ev => negb (isFinalize ev)) evs = true
           /\ model (fst (createModel gen options s)) = model s.
Proof.
  intros options s. rewrite createModel_eq.
  destruct (PathIsDirOrPattern (InPath options) (worldOf s)).
  - set (removed := filter _ _).
    destruct (removal_loop removed s) as (evs1 & rest & Et & Er & Ev & Hk).
    unfold bind.
    destruct (forEach removed removeOne s) as [s1 [[]|err|]]; simpl in *.
    + specialize (Ev eq_refl). subst rest. rewrite app_nil_r in Er.
      rewrite finalize_eq.
      destruct (Finalize (model s1)) as [m2 [err|]]; simpl.
      * exists (evs1 ++ [EvFinalize (Some err)]). rewrite Et, <- app_assoc.
        split; [reflexivity |]. exists []. split; [| reflexivity].
        rewrite removedBy_app, app_nil_r. simpl. now rewrite app_nil_r.
      * match goal with |- context [writeModel gen options ?s2] =>
          destruct (writeModel_removes_nothing gen options s2) as (evs3 & E3 & R3 & _) end.
        exists (evs1 ++ EvFinalize None :: evs3). rewrite E3. simpl. rewrite Et.
        rewrite <- !app_assoc. split; [reflexivity |]. exists [].
        split; [| reflexivity].
        rewrite removedBy_app. simpl. fold (removedBy evs3).
        now rewrite R3, !app_nil_r.
    + exists evs1. split; [exact Et |]. exists rest. split; [exact Er | discriminate].
    + exists evs1. split; [exact Et |]. exists rest. split; [exact Er | discriminate].
  - unfold bind, ret.
    destruct (writeModel_removes_nothing gen options s) as (evs & E & R & F).
    destruct (writeModel_events gen options s) as [Em _].
    exists evs. auto.
Qed.


Section RandFacts.
Context {World : Type} (E : Env World).
Variable gen : CodeGenerator World.


Lemma processModel_withNow now fuel options :
  @processModel _ (withNow E now) gen fuel options = @processModel _ E gen fuel options.
Proof. reflexivity. Qed.




End RandFacts.



Example Process_src_model :
  out_model (@Process _ Samples.env Samples.gen 5
               (Samples.options "src" (Some Samples.seeded)) Samples.project)
  = Some {| Entities :=
              [ {| EName := "src/a.fbs"; EId := "0:0"; Properties := [];
                   CurrentlyPresent := true; Meta := None |};
                {| EName := "src/b.fbs"; EId := "0:0"; Properties := [];
                   CurrentlyPresent := true; Meta := Some (MetaInfo "src/b.fbs") |} ];
            MRand := Some Samples.seeded; MinimumParserVersion := 5; ModelVersion := 5 |}.
Proof. vm_compute. reflexivity. Qed.

Section DriverRuns.
Context {World : Type} `{Env World}.
Variable gen : CodeGenerator World.

Lemma forEach_returns {S A : Type} (xs : list A) (body : A -> M S unit) :
  (forall x s, snd (body x s) <> OutOfFuel) ->
  forall s, snd (forEach xs body s) <> OutOfFuel.
Proof.
  intros Hb. induction xs as [|x xs IH]; intros s; [discriminate |].
  simpl. unfold bind. pose proof (Hb x s) as Hx.
  destruct (body x s) as [s' [[]|e|]]; simpl in *; [apply IH | discriminate | congruence].
Qed.

(** On a path that is no recursion pattern, [pathForEach] does not recurse:
    one unit of fuel is enough for it to return. *)
Lemma pathForEach_flat_returns {S : Type} (rd : S -> World) (fn : string -> M S unit)
    (fuel : nat) (path : string) :
  HasSuffix path recursionSuffix = false ->
  (forall p s, snd (fn p s) <> OutOfFuel) ->
  forall s, snd (pathForEach rd (Datatypes.S fuel) path fn s) <> OutOfFuel.
Proof.
  intros Hflat Hfn s. simpl. rewrite Hflat.
  match goal with |- context [Glob ?p (rd s)] => destruct (Glob p (rd s)) as [err|matches] end;
    [discriminate |].
  apply forEach_returns. intros subpath s'.
  destruct (Stat subpath (rd s')) as [err|finfo]; [discriminate |].
  simpl. destruct (IsRegular finfo); [apply Hfn | discriminate].
Qed.

(** Once the loaded registry passed [Validate], both versions are set to
    [model.ModelVersion] before anything else is done with it. *)
Lemma processModel_upgrades_versions fuel options (s : St) :
  Validate (model s) = None ->
  processModel gen fuel options s =
    bind (createBinding gen fuel options) (fun _ => createModel gen options)
      {| sys := logSys (EvValidate None) (worldOf s) (sys s);
         model := setVersions (model s) model_ModelVersion model_ModelVersion |}.
Proof.
  intros Hv. unfold processModel, bind at 1 2, wrap, onModel, update.
  rewrite Hv. reflexivity.
Qed.

End DriverRuns.

Example PathIsDirOrPattern_samples :
  @PathIsDirOrPattern _ Samples.env "src/a.fbs" Samples.project = false
  /\ @PathIsDirOrPattern _ Samples.env "src" Samples.project = true
  /\ @PathIsDirOrPattern _ Samples.env "./..." Samples.project = true
  /\ @PathIsDirOrPattern _ Samples.env "src/*.fbs" Samples.project = true.
Proof. repeat split; reflexivity. Qed.

(** With [src/b.fbs] deleted, a run on the single file [src/a.fbs] keeps the
    entity of [src/b.fbs]; a run on the directory [src] removes it. *)
Example single_file_run_keeps_entities :
  let out := @Process _ Samples.env Samples.gen 5
               (Samples.options "src/a.fbs" None) Samples.projectWithoutB in
  removedBy (trace (out_sys out)) = []
  /\ option_map (fun m => map EName (Entities m)) (out_model out)
     = Some ["src/a.fbs"; "src/b.fbs"]
  /\ out_res out = Val tt.
Proof. vm_compute. repeat split; reflexivity. Qed.

Example directory_run_removes_absent_entities :
  let out := @Process _ Samples.env Samples.gen 5
               (Samples.options "src" None) Samples.projectWithoutB in
  map EName (removedBy (trace (out_sys out))) = ["src/b.fbs"]
  /\ option_map (fun m => map EName (Entities m)) (out_model out)
     = Some ["src/a.fbs"]
  /\ out_res out = Val tt.
Proof. vm_compute. repeat split; reflexivity. Qed.

Example failed_Finalize_stops_the_run :
  let out := @Process _ Samples.envRejecting Samples.gen 5
               (Samples.options "src/a.fbs" None) Samples.project in
  trace (out_sys out)
  = [ EvLoad "./objectbox-model.json" None; EvValidate None;
      EvParseSource "src/a.fbs" None; EvMerge "src/a.fbs" None;
      EvFinalize (Some "entity has no id property"); EvClose ]
  /\ out_res out = Fail "model finalization failed: entity has no id property".
Proof. vm_compute. split; reflexivity. Qed.

Example directory_run_trace :
  trace (out_sys (@Process _ Samples.env Samples.gen 5
                    (Samples.options "src" None) Samples.project))
  = [ EvLoad "./objectbox-model.json" None; EvValidate None;
      EvParseSource "src/a.fbs" None; EvMerge "src/a.fbs" None; EvFinalize None;
      EvWriteBindingFiles "src/a.fbs" None;
      EvParseSource "src/b.fbs" None; EvMerge "src/b.fbs" None; EvFinalize None;
      EvWriteBindingFiles "src/b.fbs" None;
      EvFinalize None; EvWrite None; EvWriteModelBindingFile None; EvClose ].
Proof. vm_compute. reflexivity. Qed.
